(** * Water-level guard: ultrasonic sensor, status LED and safety relay

    A shallow embedding of [watertanklevelwarning.py] (MicroPython) and the
    properties of its moving-average filter, its three-state hysteresis alarm
    logic, its configuration store and its scheduler loop.

    Conventions of the embedding.
    - Python integers are [Z]; [//] with a positive divisor is [Z.div].
    - A Python dictionary with string keys is a [gmap string V].
    - The two output pins and the text channel to the host are an explicit
      state that is threaded through the functions that write to them.
    - Everything the program obtains from outside (the parsed JSON document,
      the file digest, the tick counter, the outcome of one sensor exchange)
      is an argument of the function that consumes it. *)

From Stdlib Require Import ZArith Lia Bool.
From Stdlib Require Import Floats.SpecFloat.
From stdpp Require Import gmap strings list fin_maps.

#[local] Set Warnings "-register-all".
#[local] Open Scope Z_scope.

(* ===================================================================== *)
(** ** Output pins *)
(* ===================================================================== *)

(** [led = Pin(LED_PIN, Pin.OUT)] and [relais = Pin(RELAY_PIN, Pin.OUT)]:
    the level last written to each pin.  The LED is written with [0], [1] or
    a boolean, the relay with the integer the alarm logic asks for. *)
Record pins : Type := mkPins {
  led_pin : bool;
  relais_pin : Z
}.

(** [led.value(v)] *)
Definition led_value (v : bool) (hw : pins) : pins :=
  {| led_pin := v; relais_pin := relais_pin hw |}.

(** [relais.value(v)] *)
Definition relais_value (v : Z) (hw : pins) : pins :=
  {| led_pin := led_pin hw; relais_pin := v |}.

(* ===================================================================== *)
(** ** The alarm state machine *)
(* ===================================================================== *)

(** [class LevelState]: three integer constants. *)
Module LevelState.
Definition OK : Z := 0.
Definition LOW : Z := 1.
Definition BOTTOM : Z := 2.
End LevelState.
Import LevelState.

(** [runtime_cfg[k]] on an integer-valued runtime configuration.  The
    dictionary is built at start-up with every key of [RUNTIME_KEYS], so the
    lookup never misses on a reachable configuration. *)
Definition cfg_get (runtime_cfg : gmap string Z) (k : string) : Z :=
  runtime_cfg !!! k.

(** [update_alarm_logic(waterlevel, prev_state, led_status)].  The global
    [runtime_cfg] is the first argument; the LED pin is written in every
    branch, so the pins are threaded through.  The result is the tuple
    [(new_state, new_led_status, new_blink_interval, desired_relay)]. *)
Definition update_alarm_logic (runtime_cfg : gmap string Z)
    (waterlevel : option Z) (prev_state : Z) (led_status : bool) (hw : pins)
    : pins * (Z * bool * Z * Z) :=
  let slow_blink := cfg_get runtime_cfg "SLOW_BLINK_MS" in
  let fast_blink := cfg_get runtime_cfg "FAST_BLINK_MS" in
  let crit_on := cfg_get runtime_cfg "CRITICAL_LEVEL_ON_MM" in
  let crit_off := cfg_get runtime_cfg "CRITICAL_LEVEL_OFF_MM" in
  let bot_on := cfg_get runtime_cfg "BOTTOM_LEVEL_ON_MM" in
  let bot_off := cfg_get runtime_cfg "BOTTOM_LEVEL_OFF_MM" in
  match waterlevel with
  | None =>
      (led_value false hw, (prev_state, false, slow_blink, 1))
  | Some waterlevel =>
      if prev_state =? OK then
        if waterlevel <=? crit_on then
          (led_value false hw, (LOW, false, slow_blink, 1))
        else
          (led_value false hw, (OK, false, slow_blink, 1))
      else if prev_state =? LOW then
        if waterlevel <=? bot_on then
          (led_value false hw, (BOTTOM, false, fast_blink, 0))
        else if waterlevel >=? crit_off then
          (led_value false hw, (OK, false, slow_blink, 1))
        else
          (led_value (negb led_status) hw,
           (LOW, negb led_status, slow_blink, 1))
      else if prev_state =? BOTTOM then
        if waterlevel >? bot_off then
          (led_value false hw, (LOW, false, slow_blink, 1))
        else
          (led_value true hw, (BOTTOM, true, slow_blink, 0))
      else
        (led_value false hw, (OK, false, slow_blink, 1))
  end.

(** Projections of the returned tuple. *)
Definition out_state (r : Z * bool * Z * Z) : Z := r.1.1.1.
Definition out_led (r : Z * bool * Z * Z) : bool := r.1.1.2.
Definition out_interval (r : Z * bool * Z * Z) : Z := r.1.2.
Definition out_relay (r : Z * bool * Z * Z) : Z := r.2.

(** The tuple alone, for statements that do not look at the pins. *)
Definition alarm_result (runtime_cfg : gmap string Z) (waterlevel : option Z)
    (prev_state : Z) (led_status : bool) (hw : pins) : Z * bool * Z * Z :=
  (update_alarm_logic runtime_cfg waterlevel prev_state led_status hw).2.

(** Re-evaluating the alarm logic once per filtered level of a sequence, each
    evaluation starting from the state and LED flag the previous one
    returned (what the scheduler does with [level_state] and [led_status]). *)
Fixpoint alarm_run (runtime_cfg : gmap string Z) (levels : list Z)
    (state : Z) (led_status : bool) (hw : pins) : pins * (Z * bool) :=
  match levels with
  | [] => (hw, (state, led_status))
  | w :: rest =>
      let '(hw', (s', l', _, _)) :=
        update_alarm_logic runtime_cfg (Some w) state led_status hw in
      alarm_run runtime_cfg rest s' l' hw'
  end.

(** The ordering the thresholds are meant to satisfy:
    [BOTTOM_ON < BOTTOM_OFF <= CRITICAL_ON < CRITICAL_OFF]. *)
Definition threshold_order (runtime_cfg : gmap string Z) : Prop :=
  cfg_get runtime_cfg "BOTTOM_LEVEL_ON_MM" < cfg_get runtime_cfg "BOTTOM_LEVEL_OFF_MM"
  /\ cfg_get runtime_cfg "BOTTOM_LEVEL_OFF_MM" <= cfg_get runtime_cfg "CRITICAL_LEVEL_ON_MM"
  /\ cfg_get runtime_cfg "CRITICAL_LEVEL_ON_MM" < cfg_get runtime_cfg "CRITICAL_LEVEL_OFF_MM".

(** A level strictly inside the LOW dead band. *)
Definition in_dead_band (runtime_cfg : gmap string Z) (w : Z) : Prop :=
  cfg_get runtime_cfg "CRITICAL_LEVEL_ON_MM" < w
  /\ w < cfg_get runtime_cfg "CRITICAL_LEVEL_OFF_MM".

(** The defaults of the runtime-tunable keys, as an integer configuration
    (the values of [defaults] in [load_config]). *)
Definition default_runtime_cfg : gmap string Z :=
  <["TANK_HEIGHT_MM" := 196]> (
  <["SENSOR_TO_WATER_MIN_MM" := 30]> (
  <["CRITICAL_LEVEL_ON_MM" := 150]> (
  <["CRITICAL_LEVEL_OFF_MM" := 180]> (
  <["BOTTOM_LEVEL_ON_MM" := 50]> (
  <["BOTTOM_LEVEL_OFF_MM" := 70]> (
  <["SLOW_BLINK_MS" := 700]> (
  <["FAST_BLINK_MS" := 200]> (
  <["MEASURE_INTERVAL_MS" := 1000]> ∅)))))))).

(* ===================================================================== *)
(** ** The moving-average filter *)
(* ===================================================================== *)

(** [samples = deque([], maxlen=MOVING_AVG_N)]: the buffered levels, oldest
    first, and the capacity fixed when the buffer is created.  A negative
    [maxlen] is refused by [deque] itself, so the capacity is a [nat]. *)
Record deque : Type := mkDeque {
  items : list Z;
  maxlen : nat
}.

(** [deque([], maxlen=n)] *)
Definition deque_new (n : nat) : deque := {| items := []; maxlen := n |}.

(** [samples.append(x)]: the new element goes to the right end; when that
    makes the buffer longer than [maxlen], the leftmost element is
    discarded (with [maxlen = 0] the buffer stays empty). *)
Definition deque_append (x : Z) (d : deque) : deque :=
  let l := items d ++ [x] in
  {| items := if (maxlen d <? length l)%nat then tail l else l;
     maxlen := maxlen d |}.

(** [sum(samples)] *)
Definition sum (l : list Z) : Z := foldr Z.add 0 l.

(** [len(samples)] *)
Definition len (l : list Z) : Z := Z.of_nat (length l).

(** [get_filtered_level()], with the global [samples] as argument. *)
Definition get_filtered_level (samples : deque) : option Z :=
  match items samples with
  | [] => None
  | _ :: _ => Some (sum (items samples) `div` len (items samples))
  end.

(** Appending a whole sequence of levels, first element first. *)
Definition push_all (xs : list Z) (d : deque) : deque :=
  foldl (fun d x => deque_append x d) d xs.

(** What the specification calls the exact integer floor mean of a
    non-empty list of levels: the integer [m] with
    [m <= sum / count < m + 1], stated without division. *)
Definition is_floor_mean (l : list Z) (m : Z) : Prop :=
  l <> [] /\ m * len l <= sum l < (m + 1) * len l.

(** The most recent [n] elements of a sequence. *)
Definition most_recent (n : nat) (xs : list Z) : list Z :=
  drop (length xs - n) xs.

(* ===================================================================== *)
(** ** The configuration store *)
(* ===================================================================== *)

(** The objects [ujson.load] can return.  An object's members are a
    dictionary; a number with a fraction or an exponent is a float, carried
    as data only (nothing below computes with it). *)
Inductive pyval : Type :=
  | PNone
  | PBool (b : bool)
  | PInt (z : Z)
  | PFloat (f : spec_float)
  | PStr (s : string)
  | PList (l : list pyval)
  | PDict (m : gmap string pyval).

(** What [open(filename)] followed by [ujson.load(f)] yields: an exception
    from either call, or the parsed document. *)
Inductive file_read (D : Type) : Type :=
  | Unreadable
  | Malformed
  | Document (doc : D).
Arguments Unreadable {D}.
Arguments Malformed {D}.
Arguments Document {D} doc.

(** [defaults] of [load_config], in the order the literal lists them (the
    order [defaults.items()] iterates in). *)
Definition default_items : list (string * pyval) :=
  [ ("TANK_HEIGHT_MM", PInt 196);
    ("SENSOR_TO_WATER_MIN_MM", PInt 30);
    ("MOVING_AVG_N", PInt 10);
    ("CRITICAL_LEVEL_ON_MM", PInt 150);
    ("CRITICAL_LEVEL_OFF_MM", PInt 180);
    ("BOTTOM_LEVEL_ON_MM", PInt 50);
    ("BOTTOM_LEVEL_OFF_MM", PInt 70);
    ("LED_PIN", PInt 15);
    ("RELAY_PIN", PInt 16);
    ("SLOW_BLINK_MS", PInt 700);
    ("FAST_BLINK_MS", PInt 200);
    ("MEASURE_INTERVAL_MS", PInt 1000) ].

Definition defaults : gmap string pyval := list_to_map default_items.

(** [needle in haystack] on two strings. *)
Definition str_contains (haystack needle : string) : bool :=
  match String.index 0 needle haystack with
  | Some _ => true
  | None => false
  end.

(** [x == k] for a string [k]: only a string with the same characters is
    equal to a string. *)
Definition is_str (k : string) (x : pyval) : bool :=
  match x with
  | PStr s => bool_decide (s = k)
  | _ => false
  end.

(** [k in config] for a string [k]; [None] is the [TypeError] of an operand
    that is not a container. *)
Definition py_contains (config : pyval) (k : string) : option bool :=
  match config with
  | PDict m => Some (bool_decide (is_Some (m !! k)))
  | PList l => Some (existsb (is_str k) l)
  | PStr s => Some (str_contains s k)
  | PNone | PBool _ | PInt _ | PFloat _ => None
  end.

(** [config[k] = v] for a string [k]; [None] is the [TypeError] of an object
    that is not a dictionary. *)
Definition py_setitem (config : pyval) (k : string) (v : pyval) : option pyval :=
  match config with
  | PDict m => Some (PDict (<[k := v]> m))
  | _ => None
  end.

(** The loop [for k, v in defaults.items(): if k not in config: config[k] = v];
    [None] when an exception escapes it. *)
Fixpoint fill_defaults (its : list (string * pyval)) (config : pyval)
    : option pyval :=
  match its with
  | [] => Some config
  | (k, v) :: rest =>
      match py_contains config k with
      | None => None
      | Some true => fill_defaults rest config
      | Some false =>
          match py_setitem config k v with
          | None => None
          | Some config' => fill_defaults rest config'
          end
      end
  end.

(** [load_config(filename)], given what reading and parsing the file yields.
    The second component tells whether the handler of [except Exception]
    ran, that is whether the warning was printed. *)
Definition load_config (file : file_read pyval) : pyval * bool :=
  match file with
  | Document config =>
      match fill_defaults default_items config with
      | Some config' => (config', false)
      | None => (PDict defaults, true)
      end
  | Unreadable | Malformed => (PDict defaults, true)
  end.

(** The recognised keys. *)
Definition CONFIG_KEYS : list string := default_items.*1.

(** [RUNTIME_KEYS] *)
Definition RUNTIME_KEYS : list string :=
  [ "TANK_HEIGHT_MM";
    "SENSOR_TO_WATER_MIN_MM";
    "CRITICAL_LEVEL_ON_MM";
    "CRITICAL_LEVEL_OFF_MM";
    "BOTTOM_LEVEL_ON_MM";
    "BOTTOM_LEVEL_OFF_MM";
    "SLOW_BLINK_MS";
    "FAST_BLINK_MS";
    "MEASURE_INTERVAL_MS" ].

(** Python's [!=] on the values a configuration holds.  It is the
    interpreter's, not the program's, so the configuration store is written
    against this interface. *)
Class PyNe (V : Type) := py_ne : V -> V -> bool.

#[export] Instance Z_PyNe : PyNe Z := fun a b => negb (a =? b).

Section ConfigStore.
Context {V : Type} `{PyNe V}.

(** [{k: cfg[k] for k in keys}]; [None] is the [KeyError] of a missing key. *)
Fixpoint pick_keys (keys : list string) (cfg : gmap string V)
    : option (gmap string V) :=
  match keys with
  | [] => Some ∅
  | k :: rest =>
      match cfg !! k, pick_keys rest cfg with
      | Some v, Some m => Some (<[k := v]> m)
      | _, _ => None
      end
  end.

(** [runtime_cfg = {k: cfg[k] for k in RUNTIME_KEYS}] *)
Definition init_runtime_cfg (cfg : gmap string V) : option (gmap string V) :=
  pick_keys RUNTIME_KEYS cfg.

(** The loop of [update_runtime_cfg] over the remaining keys, with the
    global [runtime_cfg] and the local [changes] as accumulators.  The second
    component is [None] when [runtime_cfg[k]] raises [KeyError]; the
    dictionary returned then holds the assignments made before. *)
Fixpoint update_keys (keys : list string) (new_cfg runtime_cfg : gmap string V)
    (changes : list string) : gmap string V * option (list string) :=
  match keys with
  | [] => (runtime_cfg, Some changes)
  | k :: rest =>
      match new_cfg !! k with
      | Some nv =>
          match runtime_cfg !! k with
          | Some cur =>
              if py_ne nv cur then
                update_keys rest new_cfg (<[k := nv]> runtime_cfg) (changes ++ [k])
              else
                update_keys rest new_cfg runtime_cfg changes
          | None => (runtime_cfg, None)
          end
      | None => update_keys rest new_cfg runtime_cfg changes
      end
  end.

(** [update_runtime_cfg(new_cfg)] for a payload that is a JSON object: the
    new [runtime_cfg] and the returned list [changes]. *)
Definition update_runtime_cfg (runtime_cfg new_cfg : gmap string V)
    : gmap string V * option (list string) :=
  update_keys RUNTIME_KEYS new_cfg runtime_cfg [].

(** Every runtime-tunable key has a value. *)
Definition runtime_complete (runtime_cfg : gmap string V) : Prop :=
  Forall (fun k => is_Some (runtime_cfg !! k)) RUNTIME_KEYS.

(** The keys the specification says are updated: in the whitelist, present
    in the payload, and different from the current value. *)
Definition to_change (runtime_cfg new_cfg : gmap string V) (k : string) : bool :=
  match new_cfg !! k, runtime_cfg !! k with
  | Some nv, Some cur => py_ne nv cur
  | _, _ => false
  end.

End ConfigStore.

(* ===================================================================== *)
(** ** The distance sensor *)
(* ===================================================================== *)

(** The lines [send_output] writes to the host, by kind. *)
Inductive message : Type :=
  | MsgUnrealDistance (distance : Z)   (* Onwerkelijke waarde afstand *)
  | MsgSensorTimeout                   (* Sensor timeout *)
  | MsgConfigUpdate (changes : list string)
  | MsgReloadError                     (* Fout bij herladen config *)
  | MsgWaterLevel (filtered : option Z)
  | MsgSensorFault                     (* Sensor fout *)
  | MsgPermanentAlarm                  (* Permanent sensor alarm! *)
  | MsgRelay (v : Z).                  (* Relais ingesteld op ... *)

(** [read_distance()], given the four-byte responses [sensor_uart.read(4)]
    returns while the 300 ms window is open, in order.  A response without
    the [0xFF 0xFF] header is skipped; the first one with the header decides.
    The result is the distance (or [None]) and the lines sent to the host. *)
Fixpoint read_distance (runtime_cfg : gmap string Z)
    (responses : list (Z * Z * Z * Z)) : option Z * list message :=
  match responses with
  | [] => (None, [MsgSensorTimeout])
  | (r0, r1, r2, r3) :: rest =>
      if (r0 =? 255) && (r1 =? 255) then
        let distance := Z.shiftl r2 8 + r3 in
        let min_mm := cfg_get runtime_cfg "SENSOR_TO_WATER_MIN_MM" in
        let max_mm := cfg_get runtime_cfg "TANK_HEIGHT_MM" in
        if (min_mm <=? distance) && (distance <=? max_mm) then
          (Some distance, [])
        else
          (None, [MsgUnrealDistance distance])
      else read_distance runtime_cfg rest
  end.

(* ===================================================================== *)
(** ** The scheduler *)
(* ===================================================================== *)

(** The globals [runtime_cfg] and [samples], the locals of [main], the two
    pins and the lines sent to the host so far. *)
Record context : Type := mkContext {
  runtime_cfg : gmap string Z;
  samples : deque;
  level_state : Z;
  led_status : bool;
  blink_interval : Z;
  last_blink : Z;
  last_measure : Z;
  last_valid_level : option Z;
  error_count : Z;
  relais_actief : option Z;
  last_cfg_hash : option (list Z);
  last_cfg_check : Z;
  hw : pins;
  output : list message
}.

Definition set_runtime_cfg (v : gmap string Z) (c : context) : context :=
  mkContext v (samples c) (level_state c) (led_status c) (blink_interval c)
    (last_blink c) (last_measure c) (last_valid_level c) (error_count c)
    (relais_actief c) (last_cfg_hash c) (last_cfg_check c) (hw c) (output c).

Definition set_samples (v : deque) (c : context) : context :=
  mkContext (runtime_cfg c) v (level_state c) (led_status c) (blink_interval c)
    (last_blink c) (last_measure c) (last_valid_level c) (error_count c)
    (relais_actief c) (last_cfg_hash c) (last_cfg_check c) (hw c) (output c).

Definition set_alarm (s : Z) (l : bool) (i : Z) (c : context) : context :=
  mkContext (runtime_cfg c) (samples c) s l i
    (last_blink c) (last_measure c) (last_valid_level c) (error_count c)
    (relais_actief c) (last_cfg_hash c) (last_cfg_check c) (hw c) (output c).

Definition set_last_blink (v : Z) (c : context) : context :=
  mkContext (runtime_cfg c) (samples c) (level_state c) (led_status c)
    (blink_interval c) v (last_measure c) (last_valid_level c) (error_count c)
    (relais_actief c) (last_cfg_hash c) (last_cfg_check c) (hw c) (output c).

Definition set_last_measure (v : Z) (c : context) : context :=
  mkContext (runtime_cfg c) (samples c) (level_state c) (led_status c)
    (blink_interval c) (last_blink c) v (last_valid_level c) (error_count c)
    (relais_actief c) (last_cfg_hash c) (last_cfg_check c) (hw c) (output c).

Definition set_last_valid_level (v : option Z) (c : context) : context :=
  mkContext (runtime_cfg c) (samples c) (level_state c) (led_status c)
    (blink_interval c) (last_blink c) (last_measure c) v (error_count c)
    (relais_actief c) (last_cfg_hash c) (last_cfg_check c) (hw c) (output c).

Definition set_error_count (v : Z) (c : context) : context :=
  mkContext (runtime_cfg c) (samples c) (level_state c) (led_status c)
    (blink_interval c) (last_blink c) (last_measure c) (last_valid_level c) v
    (relais_actief c) (last_cfg_hash c) (last_cfg_check c) (hw c) (output c).

Definition set_relais_actief (v : option Z) (c : context) : context :=
  mkContext (runtime_cfg c) (samples c) (level_state c) (led_status c)
    (blink_interval c) (last_blink c) (last_measure c) (last_valid_level c)
    (error_count c) v (last_cfg_hash c) (last_cfg_check c) (hw c) (output c).

Definition set_last_cfg_hash (v : option (list Z)) (c : context) : context :=
  mkContext (runtime_cfg c) (samples c) (level_state c) (led_status c)
    (blink_interval c) (last_blink c) (last_measure c) (last_valid_level c)
    (error_count c) (relais_actief c) v (last_cfg_check c) (hw c) (output c).

Definition set_last_cfg_check (v : Z) (c : context) : context :=
  mkContext (runtime_cfg c) (samples c) (level_state c) (led_status c)
    (blink_interval c) (last_blink c) (last_measure c) (last_valid_level c)
    (error_count c) (relais_actief c) (last_cfg_hash c) v (hw c) (output c).

Definition set_hw (v : pins) (c : context) : context :=
  mkContext (runtime_cfg c) (samples c) (level_state c) (led_status c)
    (blink_interval c) (last_blink c) (last_measure c) (last_valid_level c)
    (error_count c) (relais_actief c) (last_cfg_hash c) (last_cfg_check c) v
    (output c).

(** [send_output(msg)] *)
Definition send_output (msg : message) (c : context) : context :=
  mkContext (runtime_cfg c) (samples c) (level_state c) (led_status c)
    (blink_interval c) (last_blink c) (last_measure c) (last_valid_level c)
    (error_count c) (relais_actief c) (last_cfg_hash c) (last_cfg_check c)
    (hw c) (output c ++ [msg]).

(** The lines a callee sent, in order. *)
Definition send_all (sent : list message) (c : context) : context :=
  foldl (fun c m => send_output m c) c sent.

(** The state [main] starts its loop in: the three readings of
    [utime.ticks_ms()], the digest [file_md5] returned, and the levels the
    pins happen to have. *)
Definition initial_context (rc : gmap string Z) (moving_avg_n : nat)
    (t_blink t_measure t_check : Z) (cfg_hash : option (list Z)) (hw0 : pins)
    : context :=
  {| runtime_cfg := rc;
     samples := deque_new moving_avg_n;
     level_state := OK;
     led_status := false;
     blink_interval := cfg_get rc "SLOW_BLINK_MS";
     last_blink := t_blink;
     last_measure := t_measure;
     last_valid_level := None;
     error_count := 0;
     relais_actief := None;
     last_cfg_hash := cfg_hash;
     last_cfg_check := t_check;
     hw := hw0;
     output := [] |}.

(** The body of the configuration check once it is due: [cfg_hash] is what
    [file_md5] returns, [file] what re-reading the file yields (consulted
    only when the digest is new). *)
Definition config_activity (now : Z) (cfg_hash : option (list Z))
    (file : file_read (gmap string Z)) (c : context) : context :=
  let truthy := match cfg_hash with Some (_ :: _) => true | _ => false end in
  let c :=
    if truthy && negb (bool_decide (cfg_hash = last_cfg_hash c)) then
      match file with
      | Document new_cfg =>
          match update_runtime_cfg (runtime_cfg c) new_cfg with
          | (rc', Some changes) =>
              let c := set_runtime_cfg rc' c in
              let c :=
                match changes with
                | [] => c
                | _ :: _ => send_output (MsgConfigUpdate changes) c
                end in
              set_last_cfg_hash cfg_hash c
          | (rc', None) => send_output MsgReloadError (set_runtime_cfg rc' c)
          end
      | Unreadable | Malformed => send_output MsgReloadError c
      end
    else c in
  set_last_cfg_check now c.

(** The body of the measurement once it is due, given what
    [read_distance()] returned and sent. *)
Definition measure_activity (now : Z) (reading : option Z * list message)
    (c : context) : context :=
  let '(d, sent) := reading in
  let c := send_all sent c in
  let c := set_last_measure now c in
  match d with
  | Some d =>
      let waterlevel := Z.max 0 (cfg_get (runtime_cfg c) "TANK_HEIGHT_MM" - d) in
      let c := set_samples (deque_append waterlevel (samples c)) c in
      let filtered_level := get_filtered_level (samples c) in
      let c := set_last_valid_level filtered_level c in
      let c := send_output (MsgWaterLevel filtered_level) c in
      set_error_count 0 c
  | None =>
      let c := set_error_count (error_count c + 1) c in
      let c := send_output MsgSensorFault c in
      if error_count c >=? 5 then
        let c := set_hw (led_value true (hw c)) c in
        if negb (bool_decide (relais_actief c = Some 0)) then
          let c := set_hw (relais_value 0 (hw c)) c in
          let c := set_relais_actief (Some 0) c in
          send_output MsgPermanentAlarm c
        else c
      else c
  end.

(** The body of the state evaluation once it is due. *)
Definition eval_activity (now : Z) (c : context) : context :=
  let '(hw', (s, l, i, gewenste_relais)) :=
    update_alarm_logic (runtime_cfg c) (last_valid_level c) (level_state c)
      (led_status c) (hw c) in
  let c := set_hw hw' c in
  let c := set_alarm s l i c in
  let c :=
    if negb (bool_decide (relais_actief c = Some gewenste_relais)) then
      let c := set_hw (relais_value gewenste_relais (hw c)) c in
      let c := set_relais_actief (Some gewenste_relais) c in
      send_output (MsgRelay gewenste_relais) c
    else c in
  set_last_blink now c.

(** One of the three timed activities, with what it reads from outside. *)
Inductive activity : Type :=
  | AConfig (now : Z) (cfg_hash : option (list Z))
      (file : file_read (gmap string Z))
  | AMeasure (now : Z) (reading : option Z * list message)
  | AEval (now : Z).

Definition run_activity (a : activity) (c : context) : context :=
  match a with
  | AConfig now cfg_hash file => config_activity now cfg_hash file c
  | AMeasure now reading => measure_activity now reading c
  | AEval now => eval_activity now c
  end.

Definition run (tr : list activity) (c : context) : context :=
  foldl (fun c a => run_activity a c) c tr.

(** A measurement that failed, one that succeeded. *)
Definition is_failure (a : activity) : bool :=
  match a with AMeasure _ (None, _) => true | _ => false end.

Definition is_success (a : activity) : bool :=
  match a with AMeasure _ (Some _, _) => true | _ => false end.

(** What one turn of [while True] reads from outside. *)
Record tick : Type := mkTick {
  now : Z;
  cfg_hash : option (list Z);
  file : file_read (gmap string Z);
  responses : list (Z * Z * Z * Z)
}.

Section MainLoop.

(** [utime.ticks_diff], the wrap-around difference of two tick readings; it
    is MicroPython's, not the program's. *)
Variable ticks_diff : Z -> Z -> Z.

Definition CONFIG_CHECK_INTERVAL_MS : Z := 5000.

(** The body of [while True] in [main] (the closing [sleep_ms(30)] has no
    effect on the state). *)
Definition main_iteration (t : tick) (c : context) : context :=
  let c :=
    if ticks_diff (now t) (last_cfg_check c) >=? CONFIG_CHECK_INTERVAL_MS then
      config_activity (now t) (cfg_hash t) (file t) c
    else c in
  let c :=
    if ticks_diff (now t) (last_measure c)
         >=? cfg_get (runtime_cfg c) "MEASURE_INTERVAL_MS" then
      measure_activity (now t) (read_distance (runtime_cfg c) (responses t)) c
    else c in
  if ticks_diff (now t) (last_blink c) >=? blink_interval c then
    eval_activity (now t) c
  else c.

(** The loop over the turns given. *)
Definition main_loop (ts : list tick) (c : context) : context :=
  foldl (fun c t => main_iteration t c) c ts.

End MainLoop.

(** The pin the relay was last switched to is the level recorded in
    [relais_actief], and the error counter is not negative. *)
Definition coherent (c : context) : Prop :=
  0 <= error_count c
  /\ forall v, relais_actief c = Some v -> relais_pin (hw c) = v.

(* ===================================================================== *)
(** ** Notions the stated properties use *)
(* ===================================================================== *)

(** The LOW to BOTTOM entry: an evaluation from LOW with an available level
    at or below [BOTTOM_LEVEL_ON_MM]. *)
Definition enters_bottom (runtime_cfg : gmap string Z) (waterlevel : option Z)
    (prev_state : Z) : bool :=
  match waterlevel with
  | Some w => (prev_state =? LOW) && (w <=? cfg_get runtime_cfg "BOTTOM_LEVEL_ON_MM")
  | None => false
  end.

(** A value no reading of the configuration keys accepts as a length, a
    time or a pin number: [null], a string, an array or an object. *)
Definition malformed (v : pyval) : bool :=
  match v with
  | PNone | PStr _ | PList _ | PDict _ => true
  | PBool _ | PInt _ | PFloat _ => false
  end.

(** The number of failed measurements in a trace. *)
Definition failures (tr : list activity) : nat :=
  length (List.filter is_failure tr).

(** A run used as an example: start-up with the defaults, one measurement
    of 30 mm (level 166) and its evaluation, then five failed measurements
    with state evaluations in between. *)
Definition boot_context : context :=
  initial_context default_runtime_cfg 10 0 0 0 None (mkPins false 0).

Definition filled_context : context :=
  run [AMeasure 1000 (Some 30, []); AEval 1000] boot_context.

Definition failing_trace : list activity :=
  [ AMeasure 2000 (None, [MsgSensorTimeout]);
    AEval 2000;
    AMeasure 3000 (None, [MsgSensorTimeout]);
    AMeasure 4000 (None, [MsgUnrealDistance 900]);
    AEval 4000;
    AMeasure 5000 (None, [MsgSensorTimeout]) ].

(** A response that starts with the two header bytes [0xFF 0xFF]. *)
Definition has_header (resp : Z * Z * Z * Z) : bool :=
  let '(r0, r1, _, _) := resp in (r0 =? 255) && (r1 =? 255).

(** One of the three constants of [LevelState]. *)
Definition state_known (s : Z) : Prop := s = OK \/ s = LOW \/ s = BOTTOM.

(** A buffer that holds no more than its capacity. *)
Definition well_sized (d : deque) : Prop := (length (items d) <= maxlen d)%nat.

(** A digest that passes the test [if cfg_hash] of the configuration check. *)
Definition truthy (cfg_hash : option (list Z)) : bool :=
  match cfg_hash with Some (_ :: _) => true | _ => false end.

(** What holds of the scheduler's state in every turn of the loop, for a
    buffer created with capacity [n]. *)
Definition loop_invariant (n : nat) (c : context) : Prop :=
  coherent c
  /\ state_known (level_state c)
  /\ maxlen (samples c) = n
  /\ well_sized (samples c)
  /\ Forall (fun x => 0 <= x) (items (samples c))
  /\ (forall m, last_valid_level c = Some m -> 0 <= m)
  /\ (relais_actief c = None \/ relais_actief c = Some 0
      \/ relais_actief c = Some 1).

(* ===================================================================== *)
(** * Properties                                                          *)
(* ===================================================================== *)

(* ===================================================================== *)
(** ** The alarm state machine *)
(* ===================================================================== *)

(** Case analysis on every comparison the alarm logic makes. *)
Ltac alarm_cases :=
  unfold alarm_result, update_alarm_logic, enters_bottom, out_state, out_led,
    out_interval, out_relay, OK, LOW, BOTTOM in *;
  repeat (case_match; simpl in *; try lia; try discriminate; auto).

(** One evaluation inside the dead band from LOW: the state stays LOW, the
    LED flag (and the pin) is inverted, the interval is the slow one and the
    relay stays on. *)
Lemma dead_band_step runtime_cfg w led_status hw :
  threshold_order runtime_cfg ->
  in_dead_band runtime_cfg w ->
  update_alarm_logic runtime_cfg (Some w) LOW led_status hw =
    (led_value (negb led_status) hw,
     (LOW, negb led_status, cfg_get runtime_cfg "SLOW_BLINK_MS", 1)).
Proof.
  intros (Hb & Hbc & Hc) [Hlo Hhi].
  unfold update_alarm_logic.
  change (LOW =? OK) with false. change (LOW =? LOW) with true. cbv iota.
  destruct (Z.leb_spec w (cfg_get runtime_cfg "BOTTOM_LEVEL_ON_MM")); [lia|].
  unfold Z.geb.
  destruct (Z.compare_spec w (cfg_get runtime_cfg "CRITICAL_LEVEL_OFF_MM"));
    try lia; reflexivity.
Qed.

(** C1 (hysteresis no-chatter).  Under the threshold ordering, every
    evaluation from LOW with a level strictly between [crit_on] and
    [crit_off] returns LOW with only the LED flag inverted (slow interval,
    relay on); hence over any sequence of such levels the state is LOW after
    every evaluation, and at the end the LED flag has been inverted once per
    evaluation. *)
Theorem hysteresis_no_chatter runtime_cfg levels led_status hw :
  threshold_order runtime_cfg ->
  Forall (in_dead_band runtime_cfg) levels ->
  (forall w l h, in_dead_band runtime_cfg w ->
     alarm_result runtime_cfg (Some w) LOW l h =
       (LOW, negb l, cfg_get runtime_cfg "SLOW_BLINK_MS", 1))
  /\ (forall n,
     (alarm_run runtime_cfg (take n levels) LOW led_status hw).2.1 = LOW)
  /\ (alarm_run runtime_cfg levels LOW led_status hw).2 =
       (LOW, xorb led_status (Nat.odd (length levels))).
Proof.
  intros Hord Hall. split; [|split].
  - intros w l h Hw. unfold alarm_result. by rewrite dead_band_step.
  - intros n. revert levels Hall led_status hw.
    induction n as [|n IH]; intros [|w rest] Hall l h; try reflexivity.
    inversion Hall as [|? ? Hw Hrest]; subst.
    cbn [take alarm_run]. rewrite dead_band_step by assumption.
    by apply IH.
  - revert led_status hw.
    induction Hall as [|w rest Hw Hrest IH]; intros l h.
    + cbn. by rewrite xorb_false_r.
    + cbn [alarm_run length]. rewrite dead_band_step by assumption.
      rewrite IH. f_equal. rewrite Nat.odd_succ, <- Nat.negb_odd.
      by destruct l, (Nat.odd (length rest)).
Qed.

(** The defaults, and three levels oscillating inside (150, 180). *)
Lemma hysteresis_no_chatter_witness :
  threshold_order default_runtime_cfg
  /\ Forall (in_dead_band default_runtime_cfg) [151; 179; 160]
  /\ (alarm_run default_runtime_cfg [151; 179; 160] LOW false
        (mkPins false 1)).2 = (LOW, true).
Proof.
  assert (Ho : threshold_order default_runtime_cfg)
    by (unfold threshold_order; vm_compute; intuition congruence).
  assert (Hl : Forall (in_dead_band default_runtime_cfg) [151; 179; 160])
    by (repeat constructor; vm_compute; reflexivity).
  split; [exact Ho | split; [exact Hl |]].
  exact (proj2 (proj2 (hysteresis_no_chatter default_runtime_cfg
                         [151; 179; 160] false (mkPins false 1) Ho Hl))).
Defined.

(** C2 (monotonic state adjacency).  Whatever the configuration, the level
    (available or not) and the LED flag: from OK one evaluation returns OK
    or LOW, from LOW it returns OK, LOW or BOTTOM, from BOTTOM it returns
    BOTTOM or LOW; in particular never BOTTOM from OK and never OK from
    BOTTOM. *)
Theorem state_adjacency (runtime_cfg : gmap string Z) (waterlevel : option Z)
    (led_status : bool) (hw : pins) :
  let next prev_state :=
    out_state (alarm_result runtime_cfg waterlevel prev_state led_status hw) in
  (next OK = OK \/ next OK = LOW)
  /\ (next LOW = OK \/ next LOW = LOW \/ next LOW = BOTTOM)
  /\ (next BOTTOM = BOTTOM \/ next BOTTOM = LOW)
  /\ next OK <> BOTTOM
  /\ next BOTTOM <> OK.
Proof.
  cbv zeta. repeat split; alarm_cases.
Qed.

(** C3 (fail-safe rule on missing data).  The filtered level is unavailable
    exactly when the sample buffer is empty, as it is when created; and with
    no level the alarm logic returns [(prev_state, False, slow_blink, 1)]
    for every previous state and LED flag, switching the LED pin off. *)
Theorem fail_safe_missing_data (runtime_cfg : gmap string Z) (prev_state : Z)
    (led_status : bool) (hw : pins) :
  (forall n, get_filtered_level (deque_new n) = None)
  /\ (forall d, get_filtered_level d = None <-> items d = [])
  /\ update_alarm_logic runtime_cfg None prev_state led_status hw =
       (led_value false hw,
        (prev_state, false, cfg_get runtime_cfg "SLOW_BLINK_MS", 1)).
Proof.
  split; [reflexivity | split; [| reflexivity]].
  intros d. unfold get_filtered_level. destruct (items d); split; congruence.
Qed.

(** C4, as stated, fails: with no level the relay asked for is 1, not 0
    (here with the defaults, from OK). *)
Lemma missing_data_relay_not_unsafe :
  out_relay (alarm_result default_runtime_cfg None OK false (mkPins false 0))
    <> 0.
Proof. vm_compute. discriminate. Qed.

(** C4 (amended).  Whenever the filtered level passed to the evaluation is
    unavailable, the relay value asked for is 1 (relay on, the safe value),
    whatever the configuration, the previous state and the LED flag. *)
Theorem missing_data_relay_on (runtime_cfg : gmap string Z) (prev_state : Z)
    (led_status : bool) (hw : pins) :
  out_relay (alarm_result runtime_cfg None prev_state led_status hw) = 1.
Proof. reflexivity. Qed.

(** C9 (relay/state correspondence).  With an available level the relay
    value returned is 0 exactly when the state returned is BOTTOM (and it is
    1 otherwise); with no level the relay value is 1 even while the state
    held is BOTTOM. *)
Theorem relay_state_correspondence (runtime_cfg : gmap string Z)
    (prev_state : Z) (led_status : bool) (hw : pins) :
  (forall w,
     let r := alarm_result runtime_cfg (Some w) prev_state led_status hw in
     (out_relay r = 0 <-> out_state r = BOTTOM)
     /\ (out_relay r = 0 \/ out_relay r = 1))
  /\ alarm_result runtime_cfg None BOTTOM led_status hw =
       (BOTTOM, false, cfg_get runtime_cfg "SLOW_BLINK_MS", 1).
Proof.
  split; [| reflexivity].
  intros w. cbv zeta. repeat split; alarm_cases.
Qed.

(** C10 (BOTTOM evaluation interval).  The interval returned is
    [FAST_BLINK_MS] on the LOW to BOTTOM entry and [SLOW_BLINK_MS] on every
    other evaluation; the entry does return BOTTOM; and an evaluation from
    BOTTOM with a level at or below [bot_off] stays in BOTTOM with the slow
    interval, the LED flag and pin on and the relay off. *)
Theorem fast_blink_only_on_entry (runtime_cfg : gmap string Z)
    (waterlevel : option Z) (prev_state : Z) (led_status : bool) (hw : pins) :
  let r := alarm_result runtime_cfg waterlevel prev_state led_status hw in
  out_interval r =
    (if enters_bottom runtime_cfg waterlevel prev_state
     then cfg_get runtime_cfg "FAST_BLINK_MS"
     else cfg_get runtime_cfg "SLOW_BLINK_MS")
  /\ (enters_bottom runtime_cfg waterlevel prev_state = true ->
      out_state r = BOTTOM)
  /\ (forall w, w <= cfg_get runtime_cfg "BOTTOM_LEVEL_OFF_MM" ->
      update_alarm_logic runtime_cfg (Some w) BOTTOM led_status hw =
        (led_value true hw,
         (BOTTOM, true, cfg_get runtime_cfg "SLOW_BLINK_MS", 0))).
Proof.
  cbv zeta. repeat split.
  - alarm_cases.
  - alarm_cases.
  - intros w Hw. unfold update_alarm_logic.
    change (BOTTOM =? OK) with false. change (BOTTOM =? LOW) with false.
    change (BOTTOM =? BOTTOM) with true. cbv iota.
    unfold Z.gtb.
    destruct (Z.compare_spec w (cfg_get runtime_cfg "BOTTOM_LEVEL_OFF_MM"));
      try lia; reflexivity.
Qed.

(** The four threshold scenarios of the specification, with the defaults:
    146 mm from OK, 182 mm from LOW, 40 mm from LOW, 75 mm from BOTTOM. *)
Example threshold_scenarios :
  let eval w s := alarm_result default_runtime_cfg (Some w) s false
                    (mkPins false 1) in
  eval 146 OK = (LOW, false, 700, 1)
  /\ eval 182 LOW = (OK, false, 700, 1)
  /\ eval 40 LOW = (BOTTOM, false, 200, 0)
  /\ eval 75 BOTTOM = (LOW, false, 700, 1).
Proof. vm_compute. done. Qed.

(* ===================================================================== *)
(** ** The moving-average filter *)
(* ===================================================================== *)

Lemma tail_drop (l : list Z) : tail l = drop 1 l.
Proof. by destruct l. Qed.

Lemma maxlen_push_all xs d : maxlen (push_all xs d) = maxlen d.
Proof.
  revert d. induction xs as [|x xs IH]; intros d; [done|].
  change (push_all (x :: xs) d) with (push_all xs (deque_append x d)).
  by rewrite IH.
Qed.

Lemma push_all_snoc xs x d :
  push_all (xs ++ [x]) d = deque_append x (push_all xs d).
Proof. unfold push_all. by rewrite foldl_app. Qed.

(** Appending to a buffer that holds the most recent [n] of [xs] leaves the
    most recent [n] of [xs ++ [x]]. *)
Lemma append_most_recent (n : nat) (xs : list Z) (x : Z) :
  (if (n <? length (most_recent n xs ++ [x]))%nat
   then tail (most_recent n xs ++ [x])
   else most_recent n xs ++ [x]) = most_recent n (xs ++ [x]).
Proof.
  unfold most_recent.
  rewrite length_app, length_drop, length_app. cbn [length].
  destruct (Nat.ltb_spec n (length xs - (length xs - n) + 1)) as [Hlt|Hge].
  - rewrite tail_drop, !drop_app, length_drop, drop_drop.
    replace (length xs - n + 1)%nat with (length xs + 1 - n)%nat by lia.
    f_equal. f_equal. lia.
  - replace (length xs - n)%nat with 0%nat by lia.
    replace (length xs + 1 - n)%nat with 0%nat by lia.
    by rewrite !drop_0.
Qed.

(** The buffer after pushing [xs] into a fresh one of capacity [n]. *)
Lemma items_push_all (n : nat) (xs : list Z) :
  items (push_all xs (deque_new n)) = most_recent n xs.
Proof.
  induction xs as [|x xs IH] using rev_ind.
  - by destruct n.
  - rewrite push_all_snoc. unfold deque_append. cbn [items].
    rewrite maxlen_push_all, IH. cbn [maxlen deque_new].
    apply append_most_recent.
Qed.

(** [sum(l) // len(l)] is the floor mean of a non-empty [l]. *)
Lemma div_is_floor_mean (l : list Z) :
  l <> [] -> is_floor_mean l (sum l `div` len l).
Proof.
  intros Hne. split; [done|].
  assert (0 < len l) by (unfold len; destruct l; [done | cbn; lia]).
  pose proof (Z.div_mod (sum l) (len l)).
  pose proof (Z.mod_pos_bound (sum l) (len l)).
  nia.
Qed.

(** The floor mean is unique. *)
Lemma floor_mean_unique (l : list Z) (m m' : Z) :
  is_floor_mean l m -> is_floor_mean l m' -> m = m'.
Proof.
  intros [Hne Hm] [_ Hm'].
  assert (0 < len l) by (unfold len; destruct l; [done | cbn; lia]).
  nia.
Qed.

(** With capacity 0 nothing is ever buffered: no level is available. *)
Lemma filter_zero_capacity (xs : list Z) :
  get_filtered_level (push_all xs (deque_new 0)) = None.
Proof.
  unfold get_filtered_level. rewrite items_push_all. unfold most_recent.
  by rewrite Nat.sub_0_r, drop_all.
Qed.

(** C6 (filter correctness).  After pushing a non-empty sequence [xs] into
    a buffer of capacity [N >= 1], the buffer holds the most recent [N]
    values of [xs] and the filtered level is their exact floor mean: with
    [N] or fewer values pushed these are all of them, with more than [N]
    they are the last [N], the older ones having been evicted. *)
Theorem filter_correctness (N : nat) (xs : list Z) :
  (0 < N)%nat -> xs <> [] ->
  let buffer := push_all xs (deque_new N) in
  items buffer = most_recent N xs
  /\ (exists m, get_filtered_level buffer = Some m
        /\ is_floor_mean (most_recent N xs) m)
  /\ ((length xs <= N)%nat -> most_recent N xs = xs)
  /\ ((N < length xs)%nat ->
        length (most_recent N xs) = N
        /\ take (length xs - N) xs ++ most_recent N xs = xs).
Proof.
  intros HN Hxs. cbv zeta.
  assert (Hne : most_recent N xs <> []).
  { unfold most_recent. intros Hnil. apply (f_equal length) in Hnil.
    rewrite length_drop in Hnil. cbn in Hnil.
    destruct xs; [done | cbn in Hnil; lia]. }
  repeat split.
  - apply items_push_all.
  - exists (sum (most_recent N xs) `div` len (most_recent N xs)). split.
    + unfold get_filtered_level. rewrite items_push_all.
      by destruct (most_recent N xs).
    + by apply div_is_floor_mean.
  - intros Hle. unfold most_recent.
    replace (length xs - N)%nat with 0%nat by lia. apply drop_0.
  - unfold most_recent. rewrite length_drop. lia.
  - apply take_drop.
Qed.

(** Capacity 3 and five values pushed: the level is the floor mean of the
    last three. *)
Lemma filter_correctness_witness :
  (0 < 3)%nat
  /\ [100; 90; 10; 15; 20] <> []
  /\ exists m,
       get_filtered_level (push_all [100; 90; 10; 15; 20] (deque_new 3)) = Some m
       /\ is_floor_mean (most_recent 3 [100; 90; 10; 15; 20]) m.
Proof.
  assert (H3 : (0 < 3)%nat) by lia.
  assert (Hne : [100; 90; 10; 15; 20] <> []) by discriminate.
  split; [exact H3 | split; [exact Hne |]].
  exact (proj1 (proj2 (filter_correctness 3 [100; 90; 10; 15; 20] H3 Hne))).
Defined.

(* ===================================================================== *)
(** ** Loading the configuration *)
(* ===================================================================== *)

(** On a document that is an object the loop raises nothing and leaves the
    document's members, completed by the defaults of the keys it lacks. *)
Lemma fill_defaults_dict (its : list (string * pyval)) (m : gmap string pyval) :
  fill_defaults its (PDict m) = Some (PDict (m ∪ list_to_map its)).
Proof.
  revert m. induction its as [|[k v] rest IH]; intros m.
  - cbn. by rewrite (right_id_L ∅ (∪)).
  - cbn [fill_defaults py_contains py_setitem]. case_bool_decide as Hk.
    + rewrite IH. do 2 f_equal. apply map_eq. intros i.
      rewrite !lookup_union, list_to_map_cons, lookup_insert.
      case_decide; subst; [| done].
      destruct Hk as [x ->]. by destruct (list_to_map rest !! i).
    + rewrite IH. do 2 f_equal. apply map_eq. intros i.
      rewrite !lookup_union, list_to_map_cons, !lookup_insert.
      case_decide; subst; [| done].
      assert (m !! i = None) as -> by (by apply eq_None_not_Some).
      by destruct (list_to_map rest !! i).
Qed.

(** Documents that are not objects.  An empty array and a number make the
    loop raise, so the defaults come back with the warning; an array that
    lists every key name passes the membership tests and is returned as it
    is. *)
Example load_config_empty_array :
  load_config (Document (PList [])) = (PDict defaults, true).
Proof. by cbv [load_config fill_defaults default_items py_contains py_setitem existsb]. Qed.

Example load_config_number :
  load_config (Document (PInt 5)) = (PDict defaults, true).
Proof. by cbv [load_config fill_defaults default_items py_contains]. Qed.

Example load_config_array_of_key_names :
  load_config (Document (PList (PStr <$> CONFIG_KEYS)))
    = (PList (PStr <$> CONFIG_KEYS), false).
Proof. vm_compute. reflexivity. Qed.

(** C7, as stated, fails: a recognised field that is present but malformed
    is not replaced by its default (a document whose only member is
    [TANK_HEIGHT_MM] with a string for value keeps that string). *)
Lemma load_config_keeps_malformed_field :
  ~ (forall (m : gmap string pyval) (k : string) (v : pyval),
       k ∈ CONFIG_KEYS -> m !! k = Some v -> malformed v = true ->
       exists m', (load_config (Document (PDict m))).1 = PDict m'
                  /\ m' !! k = defaults !! k).
Proof.
  intros Hclaim.
  destruct (Hclaim {["TANK_HEIGHT_MM" := PStr "abc"]} "TANK_HEIGHT_MM"
              (PStr "abc")) as (m' & Hload & Hk).
  - apply list_elem_of_here.
  - apply lookup_singleton_eq.
  - reflexivity.
  - unfold load_config in Hload. rewrite fill_defaults_dict in Hload.
    cbv beta iota delta [fst] in Hload. injection Hload as <-.
    rewrite lookup_union, lookup_singleton_eq in Hk.
    vm_compute in Hk. discriminate.
Qed.

(** C7 (amended).  [load_config] raises nothing.  When the file cannot be
    read or parsed it returns exactly the defaults, with the warning; and
    whenever the warning is printed the result is the defaults.  For a
    parsed document that is an object it returns, without warning, the
    document's members completed by the defaults: a recognised field the
    document lacks has its default, and a member the document has keeps the
    document's value, whatever that value is. *)
Theorem load_config_defaulting :
  load_config Unreadable = (PDict defaults, true)
  /\ load_config Malformed = (PDict defaults, true)
  /\ (forall file, (load_config file).2 = true ->
        (load_config file).1 = PDict defaults)
  /\ (forall m, load_config (Document (PDict m)) = (PDict (m ∪ defaults), false))
  /\ (forall (m : gmap string pyval) k,
        (m ∪ defaults) !! k =
          match m !! k with Some v => Some v | None => defaults !! k end).
Proof.
  split; [reflexivity | split; [reflexivity | split; [| split]]].
  - intros [| |doc]; try reflexivity. unfold load_config.
    destruct (fill_defaults default_items doc); [discriminate | reflexivity].
  - intros m. unfold load_config, defaults. by rewrite fill_defaults_dict.
  - intros m k. rewrite lookup_union.
    by destruct (m !! k), (defaults !! k).
Qed.

(** A string document: the membership test is the substring test. *)
Example py_contains_substring :
  py_contains (PStr "x LED_PIN y") "LED_PIN" = Some true
  /\ py_contains (PStr "abc") "LED_PIN" = Some false.
Proof. vm_compute. done. Qed.

Example load_config_string :
  load_config (Document (PStr "abc")) = (PDict defaults, true).
Proof.
  unfold load_config, default_items. cbn [fill_defaults].
  assert (py_contains (PStr "abc") "TANK_HEIGHT_MM" = Some false) as ->
    by (vm_compute; reflexivity).
  reflexivity.
Qed.

(* ===================================================================== *)
(** ** Applying a reload payload *)
(* ===================================================================== *)

Lemma RUNTIME_KEYS_NoDup : NoDup RUNTIME_KEYS.
Proof. apply (bool_decide_unpack _). vm_compute. exact I. Qed.

Lemma mem_cons_ne (k k' : string) (rest : list string) :
  k' <> k -> bool_decide (k' ∈ k :: rest) = bool_decide (k' ∈ rest).
Proof.
  intros Hne. apply bool_decide_ext. rewrite elem_of_cons.
  split; [by intros [?|?] | by right].
Qed.

(** The three boot-only keys are not in the whitelist. *)
Lemma MOVING_AVG_N_boot_only : "MOVING_AVG_N" ∉ RUNTIME_KEYS.
Proof. apply (bool_decide_unpack _). vm_compute. exact I. Qed.

Lemma LED_PIN_boot_only : "LED_PIN" ∉ RUNTIME_KEYS.
Proof. apply (bool_decide_unpack _). vm_compute. exact I. Qed.

Lemma RELAY_PIN_boot_only : "RELAY_PIN" ∉ RUNTIME_KEYS.
Proof. apply (bool_decide_unpack _). vm_compute. exact I. Qed.

Section ConfigStoreProperties.
Context {V : Type} `{PyNe V}.

(** Overwriting another key does not change what is to be done with [k]. *)
Lemma to_change_insert_ne (runtime_cfg new_cfg : gmap string V) k k' v :
  k <> k' ->
  to_change (<[k := v]> runtime_cfg) new_cfg k' = to_change runtime_cfg new_cfg k'.
Proof. intros Hne. unfold to_change. by rewrite lookup_insert_ne. Qed.

(** The loop over a duplicate-free list of keys that all have a current
    value: no [KeyError], the keys recorded are those to change, in the
    order of the list, and the dictionary is overwritten at those keys
    only. *)
Lemma update_keys_spec (keys : list string) (new_cfg runtime_cfg : gmap string V)
    (changes : list string) :
  NoDup keys ->
  Forall (fun k => is_Some (runtime_cfg !! k)) keys ->
  exists rc',
    update_keys keys new_cfg runtime_cfg changes =
      (rc', Some (changes ++ List.filter (to_change runtime_cfg new_cfg) keys))
    /\ forall k, rc' !! k =
         if bool_decide (k ∈ keys) && to_change runtime_cfg new_cfg k
         then new_cfg !! k else runtime_cfg !! k.
Proof.
  revert runtime_cfg changes.
  induction keys as [|k rest IH]; intros rc changes Hnd Hall.
  - exists rc. cbn. by rewrite (right_id_L [] (++)).
  - apply NoDup_cons in Hnd as [Hk Hnd].
    apply Forall_cons in Hall as [[cur Hcur] Hall].
    cbn [update_keys List.filter].
    destruct (new_cfg !! k) as [nv|] eqn:Hnew; [rewrite Hcur; destruct (py_ne nv cur) eqn:Hne |].
    + assert (Htc : to_change rc new_cfg k = true)
        by (unfold to_change; by rewrite Hnew, Hcur).
      rewrite Htc.
      destruct (IH (<[k := nv]> rc) (changes ++ [k]) Hnd) as (rc' & Hrun & Hlk).
      { eapply Forall_impl; [exact Hall|]. intros k' Hk'. cbn in Hk'.
        rewrite lookup_insert. case_decide; [by eexists | done]. }
      exists rc'. split.
      * rewrite Hrun. do 2 f_equal. rewrite <- (assoc_L (++)).
        change ([k] ++ ?l) with (k :: l). do 2 f_equal.
        apply List.filter_ext_in. intros k' Hin.
        apply to_change_insert_ne. intros ->.
        by apply Hk, list_elem_of_In.
      * intros k'. rewrite Hlk. destruct (decide (k' = k)) as [->|Hkk].
        -- rewrite (bool_decide_eq_false_2 (k ∈ rest)) by done.
          rewrite (bool_decide_eq_true_2 (k ∈ k :: rest)) by left.
          rewrite Htc. cbn. by rewrite lookup_insert_eq.
        -- rewrite to_change_insert_ne, lookup_insert_ne by done.
          by rewrite mem_cons_ne.
    + assert (Htc : to_change rc new_cfg k = false)
        by (unfold to_change; by rewrite Hnew, Hcur).
      rewrite Htc.
      destruct (IH rc changes Hnd Hall) as (rc' & Hrun & Hlk).
      exists rc'. split; [done|].
      intros k'. rewrite Hlk. destruct (decide (k' = k)) as [->|Hkk].
      * rewrite (bool_decide_eq_false_2 (k ∈ rest)) by done.
        rewrite (bool_decide_eq_true_2 (k ∈ k :: rest)) by left.
        by rewrite Htc.
      * by rewrite mem_cons_ne.
    + assert (Htc : to_change rc new_cfg k = false)
        by (unfold to_change; by rewrite Hnew).
      rewrite Htc.
      destruct (IH rc changes Hnd Hall) as (rc' & Hrun & Hlk).
      exists rc'. split; [done|].
      intros k'. rewrite Hlk. destruct (decide (k' = k)) as [->|Hkk].
      * rewrite (bool_decide_eq_false_2 (k ∈ rest)) by done.
        rewrite (bool_decide_eq_true_2 (k ∈ k :: rest)) by left.
        by rewrite Htc.
      * by rewrite mem_cons_ne.
Qed.

(** A payload without any of the keys looped over changes nothing. *)
Lemma update_keys_absent (keys : list string) (new_cfg runtime_cfg : gmap string V)
    (changes : list string) :
  (forall k, k ∈ keys -> new_cfg !! k = None) ->
  update_keys keys new_cfg runtime_cfg changes = (runtime_cfg, Some changes).
Proof.
  induction keys as [|k rest IH]; intros Habs; [done|].
  cbn [update_keys]. rewrite (Habs k) by left.
  apply IH. intros k' Hk'. apply Habs. by right.
Qed.

(** The runtime configuration built at start-up has every runtime key. *)
Lemma pick_keys_complete (keys : list string) (cfg rc : gmap string V) :
  pick_keys keys cfg = Some rc -> Forall (fun k => is_Some (rc !! k)) keys.
Proof.
  revert rc. induction keys as [|k rest IH]; intros rc Hpick; [constructor|].
  cbn in Hpick. destruct (cfg !! k) as [v|]; [| done].
  destruct (pick_keys rest cfg) as [m|]; [| done].
  injection Hpick as <-. constructor.
  - rewrite lookup_insert_eq. by eexists.
  - eapply Forall_impl; [by apply IH|]. intros k' Hk'. cbn in Hk'.
    rewrite lookup_insert. case_decide; [by eexists | done].
Qed.

Lemma init_runtime_cfg_complete (cfg rc : gmap string V) :
  init_runtime_cfg cfg = Some rc -> runtime_complete rc.
Proof. apply pick_keys_complete. Qed.

(** C8 (config whitelist isolation).  On a runtime configuration that has
    every runtime key, [update_runtime_cfg] raises nothing; it returns
    exactly the whitelisted keys that are present in the payload with a
    value different from the current one, in whitelist order; it overwrites
    the configuration at exactly those keys, with the payload's values, and
    leaves every other key as it was, in particular every key outside the
    whitelist.  When no whitelisted key is present with a different value,
    the configuration is unchanged and the list is empty; so it is for a
    payload whose only member is [MOVING_AVG_N]. *)
Theorem whitelist_isolation (runtime_cfg new_cfg : gmap string V) :
  runtime_complete runtime_cfg ->
  let changed := List.filter (to_change runtime_cfg new_cfg) RUNTIME_KEYS in
  exists rc',
    update_runtime_cfg runtime_cfg new_cfg = (rc', Some changed)
    /\ (forall k, k ∈ changed <->
          k ∈ RUNTIME_KEYS
          /\ exists nv cur, new_cfg !! k = Some nv /\ runtime_cfg !! k = Some cur
                            /\ py_ne nv cur = true)
    /\ (forall k, k ∈ changed -> rc' !! k = new_cfg !! k)
    /\ (forall k, k ∉ changed -> rc' !! k = runtime_cfg !! k)
    /\ (forall k, k ∉ RUNTIME_KEYS -> rc' !! k = runtime_cfg !! k)
    /\ runtime_complete rc'
    /\ (changed = [] -> rc' = runtime_cfg)
    /\ (forall v, update_runtime_cfg runtime_cfg {["MOVING_AVG_N" := v]}
                    = (runtime_cfg, Some [])).
Proof.
  intros Hall. cbv zeta.
  assert (Hmem : forall k, k ∈ List.filter (to_change runtime_cfg new_cfg) RUNTIME_KEYS
            <-> k ∈ RUNTIME_KEYS /\ to_change runtime_cfg new_cfg k = true).
  { intros k. rewrite !list_elem_of_In. apply List.filter_In. }
  destruct (update_keys_spec RUNTIME_KEYS new_cfg runtime_cfg []
              RUNTIME_KEYS_NoDup Hall) as (rc' & Hrun & Hlk).
  assert (Hin : forall k, k ∈ List.filter (to_change runtime_cfg new_cfg) RUNTIME_KEYS ->
            rc' !! k = new_cfg !! k).
  { intros k [Hk Htc]%Hmem. rewrite Hlk, Htc.
    by rewrite (bool_decide_eq_true_2 _ Hk). }
  assert (Hout : forall k, k ∉ List.filter (to_change runtime_cfg new_cfg) RUNTIME_KEYS ->
            rc' !! k = runtime_cfg !! k).
  { intros k Hk. rewrite Hlk.
    case_bool_decide as Hb; [| done].
    destruct (to_change runtime_cfg new_cfg k) eqn:Htc; [| done].
    exfalso. by apply Hk, Hmem. }
  exists rc'. split; [exact Hrun |].
  split; [| split; [exact Hin | split; [exact Hout | split; [| split; [| split]]]]].
  - intros k. rewrite Hmem. unfold to_change. split.
    + intros [Hk Htc]. split; [done|].
      destruct (new_cfg !! k) as [nv|]; [| done].
      destruct (runtime_cfg !! k) as [cur|]; [| done]. by exists nv, cur.
    + intros (Hk & nv & cur & Hnv & Hcur & Hne). by rewrite Hnv, Hcur.
  - intros k Hk. apply Hout. by intros [? _]%Hmem.
  - unfold runtime_complete in *. eapply Forall_impl; [exact Hall|].
    intros k [cur Hcur]. cbn. rewrite Hlk, Hcur.
    destruct (bool_decide (k ∈ RUNTIME_KEYS)); [| by eexists].
    unfold to_change. rewrite Hcur.
    destruct (new_cfg !! k) as [nv|]; [| by eexists].
    cbn. destruct (py_ne nv cur); by eexists.
  - intros Hnil. apply map_eq. intros k. apply Hout. rewrite Hnil.
    apply not_elem_of_nil.
  - intros v. apply update_keys_absent. intros k Hk.
    apply lookup_singleton_ne. intros <-. by apply MOVING_AVG_N_boot_only.
Qed.

End ConfigStoreProperties.

(** The integer configuration of the defaults has every runtime key. *)
Lemma default_runtime_complete : runtime_complete default_runtime_cfg.
Proof. apply (bool_decide_unpack _). vm_compute. exact I. Qed.

(** The reload payload of the specification's sixth scenario: only
    [CRITICAL_LEVEL_ON_MM] is reported and changed. *)
Example reload_scenario :
  update_runtime_cfg default_runtime_cfg
      (<["CRITICAL_LEVEL_ON_MM" := 140]> {["MOVING_AVG_N" := 5]})
    = (<["CRITICAL_LEVEL_ON_MM" := 140]> default_runtime_cfg,
       Some ["CRITICAL_LEVEL_ON_MM"]).
Proof. apply (bool_decide_unpack _). vm_compute. exact I. Qed.

(** The defaults and the payload of the sixth scenario. *)
Lemma whitelist_isolation_witness :
  runtime_complete default_runtime_cfg
  /\ exists rc',
       update_runtime_cfg default_runtime_cfg
           (<["CRITICAL_LEVEL_ON_MM" := 140]> {["MOVING_AVG_N" := 5]})
         = (rc', Some ["CRITICAL_LEVEL_ON_MM"])
       /\ rc' !! "MOVING_AVG_N" = None
       /\ rc' !! "CRITICAL_LEVEL_ON_MM" = Some 140.
Proof.
  split; [exact default_runtime_complete |].
  destruct (whitelist_isolation default_runtime_cfg
              (<["CRITICAL_LEVEL_ON_MM" := 140]> {["MOVING_AVG_N" := 5]})
              default_runtime_complete)
    as (rc' & Hrun & _ & Hin & _ & Hout & _).
  exists rc'. split; [exact Hrun | split].
  - rewrite Hout; [reflexivity |].
    apply (bool_decide_unpack _). vm_compute. exact I.
  - rewrite Hin; [reflexivity |]. apply list_elem_of_here.
Defined.

(* ===================================================================== *)
(** ** The scheduler: escalation and recovery *)
(* ===================================================================== *)

(** Unfolding the field updates of the context, arguments first. *)
Ltac ctx_simpl :=
  cbv beta iota zeta delta
    [set_runtime_cfg set_samples set_alarm set_last_blink set_last_measure
     set_last_valid_level set_error_count set_relais_actief set_last_cfg_hash
     set_last_cfg_check set_hw send_output led_value relais_value
     runtime_cfg samples level_state led_status blink_interval last_blink
     last_measure last_valid_level error_count relais_actief last_cfg_hash
     last_cfg_check hw output led_pin relais_pin] in *.

(** Naming the fields of a context. *)
Ltac ctx_fields c :=
  destruct c as [rc smp st led bi lb lm lvl ec ra lh lc [ledp relp] out].

(** Sending lines changes the output only. *)
Lemma send_all_eq (sent : list message) (c : context) :
  send_all sent c =
    mkContext (runtime_cfg c) (samples c) (level_state c) (led_status c)
      (blink_interval c) (last_blink c) (last_measure c) (last_valid_level c)
      (error_count c) (relais_actief c) (last_cfg_hash c) (last_cfg_check c)
      (hw c) (output c ++ sent).
Proof.
  revert c. induction sent as [|m sent IH]; intros c.
  - ctx_fields c. cbn. by rewrite (right_id_L [] (++)).
  - change (send_all (m :: sent) c) with (send_all sent (send_output m c)).
    rewrite IH. ctx_fields c. ctx_simpl. by rewrite <- (assoc_L (++)).
Qed.

(** The LED pin is written with the LED flag the alarm logic returns, and
    the relay pin is not touched by it. *)
Lemma alarm_led_pin runtime_cfg waterlevel prev_state led_status hw :
  (update_alarm_logic runtime_cfg waterlevel prev_state led_status hw).1 =
    led_value
      (out_led (alarm_result runtime_cfg waterlevel prev_state led_status hw))
      hw.
Proof. alarm_cases. Qed.

(** The configuration check touches neither the pins, nor the relay record,
    nor the error counter. *)
Lemma config_activity_frame now cfg_hash file c :
  let c' := config_activity now cfg_hash file c in
  hw c' = hw c /\ relais_actief c' = relais_actief c
  /\ error_count c' = error_count c.
Proof.
  cbv zeta. unfold config_activity.
  destruct (_ && _); [| by ctx_fields c].
  destruct file as [| |new_cfg]; try by ctx_fields c.
  destruct (update_runtime_cfg (runtime_cfg c) new_cfg) as [rc' [[|k changes]|]];
    by ctx_fields c.
Qed.

(** A failed measurement adds one to the error counter. *)
Lemma measure_failure_count now sent c :
  error_count (measure_activity now (None, sent) c) = error_count c + 1.
Proof.
  unfold measure_activity. rewrite send_all_eq. ctx_fields c. ctx_simpl.
  destruct (_ >=? _); [| done].
  by case_bool_decide.
Qed.

(** A failed measurement that brings the counter to 5 or more leaves the LED
    pin on and the relay pin at 0. *)
Lemma measure_failure_forces now sent c :
  coherent c -> 4 <= error_count c ->
  let c' := measure_activity now (None, sent) c in
  led_pin (hw c') = true /\ relais_pin (hw c') = 0
  /\ relais_actief c' = Some 0.
Proof.
  intros [_ Hrel] Hcnt. cbv zeta.
  unfold measure_activity. rewrite send_all_eq. ctx_fields c. ctx_simpl.
  destruct (Z.geb_spec (ec + 1) 5) as [_|]; [| lia].
  case_bool_decide as Hact; [| done].
  repeat split; [| done]. by apply Hrel.
Qed.

(** A successful measurement resets the counter and writes no pin. *)
Lemma measure_success_resets now d sent c :
  let c' := measure_activity now (Some d, sent) c in
  error_count c' = 0 /\ hw c' = hw c /\ relais_actief c' = relais_actief c
  /\ last_valid_level c' = get_filtered_level (samples c')
  /\ level_state c' = level_state c /\ led_status c' = led_status c.
Proof.
  cbv zeta. unfold measure_activity. rewrite send_all_eq. by ctx_fields c.
Qed.

(** After a state evaluation the state, the LED flag and pin, the interval
    and the relay pin are the ones the alarm logic decided. *)
Lemma eval_activity_drives now c :
  coherent c ->
  let r := alarm_result (runtime_cfg c) (last_valid_level c) (level_state c)
             (led_status c) (hw c) in
  let c' := eval_activity now c in
  level_state c' = out_state r /\ led_status c' = out_led r
  /\ blink_interval c' = out_interval r
  /\ led_pin (hw c') = out_led r
  /\ relais_pin (hw c') = out_relay r
  /\ relais_actief c' = Some (out_relay r)
  /\ error_count c' = error_count c.
Proof.
  intros [_ Hrel]. cbv zeta. unfold eval_activity.
  pose proof (alarm_led_pin (runtime_cfg c) (last_valid_level c)
                (level_state c) (led_status c) (hw c)) as Hpin.
  unfold alarm_result in *.
  destruct (update_alarm_logic _ _ _ _ _) as [hw' [[[s l] i] g]].
  cbn [fst snd] in Hpin. subst hw'. unfold out_state, out_led, out_interval,
    out_relay. cbn [fst snd]. ctx_fields c. ctx_simpl.
  case_bool_decide as Hact; [| done].
  repeat split; [| done]. by apply Hrel.
Qed.

(** Coherence holds at start-up and is kept by every activity. *)
Lemma initial_coherent rc n t1 t2 t3 h hw0 :
  coherent (initial_context rc n t1 t2 t3 h hw0).
Proof. split; [done | discriminate]. Qed.

Lemma run_activity_coherent a c : coherent c -> coherent (run_activity a c).
Proof.
  intros Hc. destruct a as [now h f | now [[d|] sent] | now]; cbn [run_activity].
  - destruct (config_activity_frame now h f c) as (Hhw & Hrel & Hcnt).
    destruct Hc as [H0 Hr]. split; [by rewrite Hcnt|].
    by rewrite Hhw, Hrel.
  - destruct (measure_success_resets now d sent c) as (Hcnt & Hhw & Hrel & _).
    destruct Hc as [H0 Hr]. split; [by rewrite Hcnt|].
    by rewrite Hhw, Hrel.
  - split; [rewrite measure_failure_count; destruct Hc; lia|].
    destruct Hc as [H0 Hr].
    unfold measure_activity. rewrite send_all_eq. ctx_fields c. ctx_simpl.
    destruct (_ >=? _); [| done].
    case_bool_decide as Hact; cbn.
    + exact Hr.
    + by intros v [= <-].
  - destruct (eval_activity_drives now c Hc) as (_ & _ & _ & _ & Hp & Hr & Hcnt).
    split; [rewrite Hcnt; by destruct Hc|].
    intros v. rewrite Hr, Hp. by intros [= <-].
Qed.

Lemma run_coherent tr c : coherent c -> coherent (run tr c).
Proof.
  revert c. induction tr as [|a tr IH]; intros c Hc; [done|].
  apply IH. by apply run_activity_coherent.
Qed.

(** Without a successful measurement the counter grows by the number of
    failed ones. *)
Lemma run_error_count tr c :
  Forall (fun a => is_success a = false) tr ->
  error_count (run tr c) = error_count c + Z.of_nat (failures tr).
Proof.
  revert c. induction tr as [|a tr IH]; intros c Hns.
  - cbn. lia.
  - apply Forall_cons in Hns as [Ha Hns].
    change (run (a :: tr) c) with (run tr (run_activity a c)).
    rewrite IH by done. unfold failures. cbn [List.filter].
    destruct a as [now h f | now [[d|] sent] | now];
      cbn [is_failure length run_activity].
    + destruct (config_activity_frame now h f c) as (_ & _ & ->). lia.
    + discriminate.
    + rewrite measure_failure_count. lia.
    + unfold eval_activity.
      destruct (update_alarm_logic _ _ _ _ _) as [hw' [[[s l] i] g]].
      ctx_fields c. ctx_simpl. case_bool_decide; cbn; lia.
Qed.

(** One turn of the loop runs at most three activities, in the order
    configuration check, measurement, state evaluation. *)
Lemma main_iteration_activities ticks_diff t c :
  exists tr, main_iteration ticks_diff t c = run tr c /\ (length tr <= 3)%nat.
Proof.
  unfold main_iteration.
  set (c1 := if _ >=? CONFIG_CHECK_INTERVAL_MS then _ else c).
  assert (exists tr1, c1 = run tr1 c /\ (length tr1 <= 1)%nat) as (tr1 & -> & H1).
  { subst c1. destruct (_ >=? _).
    - exists [AConfig (now t) (cfg_hash t) (file t)].
      split; [reflexivity | cbn; lia].
    - exists []. split; [done | cbn; lia]. }
  set (c2 := if _ >=? cfg_get _ _ then _ else run tr1 c).
  assert (exists tr2, c2 = run (tr1 ++ tr2) c /\ (length tr2 <= 1)%nat)
    as (tr2 & -> & H2).
  { subst c2. destruct (_ >=? _).
    - exists [AMeasure (now t) (read_distance (runtime_cfg (run tr1 c)) (responses t))].
      unfold run. rewrite foldl_app. split; [reflexivity | cbn; lia].
    - exists []. rewrite (right_id_L [] (++)). split; [done | cbn; lia]. }
  destruct (_ >=? _).
  - exists ((tr1 ++ tr2) ++ [AEval (now t)]). unfold run. rewrite !foldl_app.
    split; [reflexivity|]. rewrite !length_app. cbn. lia.
  - exists (tr1 ++ tr2). split; [done|]. rewrite length_app. lia.
Qed.

(** C5 (escalation and recovery).  From any coherent state, whatever the
    activities in between (state evaluations included) and whatever level
    was last filtered: once four measurements have failed with none
    succeeding, the next failed measurement leaves the LED pin on and the
    relay pin at 0.  A successful measurement after that sets the error
    counter to 0 and writes no pin; and the state evaluation that follows
    sets the state, the LED and the relay to what the alarm logic decides
    from the level just filtered. *)
Theorem escalation_and_recovery (c : context) (tr : list activity) (now : Z)
    (sent : list message) :
  coherent c ->
  Forall (fun a => is_success a = false) tr ->
  (4 <= failures tr)%nat ->
  let c5 := measure_activity now (None, sent) (run tr c) in
  (led_pin (hw c5) = true /\ relais_pin (hw c5) = 0
   /\ relais_actief c5 = Some 0 /\ 5 <= error_count c5)
  /\ forall now' d sent',
       let c6 := measure_activity now' (Some d, sent') c5 in
       error_count c6 = 0
       /\ hw c6 = hw c5
       /\ last_valid_level c6 = get_filtered_level (samples c6)
       /\ forall now'',
            let c7 := eval_activity now'' c6 in
            let r := alarm_result (runtime_cfg c6) (last_valid_level c6)
                       (level_state c6) (led_status c6) (hw c6) in
            level_state c7 = out_state r
            /\ led_status c7 = out_led r
            /\ led_pin (hw c7) = out_led r
            /\ relais_pin (hw c7) = out_relay r
            /\ error_count c7 = 0.
Proof.
  intros Hc Hns Hfail. cbv zeta.
  pose proof (run_coherent tr c Hc) as Hrun.
  pose proof (run_error_count tr c Hns) as Hcnt.
  assert (H4 : 4 <= error_count (run tr c)) by (destruct Hc; lia).
  destruct (measure_failure_forces now sent (run tr c) Hrun H4)
    as (Hled & Hrel & Hact).
  split.
  - repeat split; try done. rewrite measure_failure_count. lia.
  - intros now' d sent'.
    destruct (measure_success_resets now' d sent'
                (measure_activity now (None, sent) (run tr c)))
      as (Hzero & Hhw & _ & Hlvl & _).
    split; [exact Hzero | split; [exact Hhw | split; [exact Hlvl |]]].
    intros now''.
    assert (Hc6 : coherent (measure_activity now' (Some d, sent')
                    (measure_activity now (None, sent) (run tr c))))
      by (apply (run_activity_coherent (AMeasure now' (Some d, sent'))),
            (run_activity_coherent (AMeasure now (None, sent))), Hrun).
    destruct (eval_activity_drives now'' _ Hc6)
      as (Hs & Hl & _ & Hp & Hr & _ & He).
    by rewrite He.
Qed.

(** The example run: after the fifth failure the LED pin is on and the relay
    pin is at 0, although the last filtered level (166) means OK. *)
Lemma escalation_and_recovery_witness :
  coherent filled_context
  /\ Forall (fun a => is_success a = false) failing_trace
  /\ (4 <= failures failing_trace)%nat
  /\ let c5 := measure_activity 6000 (None, [MsgSensorTimeout])
                 (run failing_trace filled_context) in
     led_pin (hw c5) = true /\ relais_pin (hw c5) = 0
     /\ relais_actief c5 = Some 0 /\ 5 <= error_count c5.
Proof.
  assert (Hc : coherent filled_context)
    by apply run_coherent, initial_coherent.
  assert (Hns : Forall (fun a => is_success a = false) failing_trace)
    by (repeat constructor).
  assert (Hf : (4 <= failures failing_trace)%nat) by (cbn; lia).
  split; [exact Hc | split; [exact Hns | split; [exact Hf |]]].
  exact (proj1 (escalation_and_recovery filled_context failing_trace 6000
                  [MsgSensorTimeout] Hc Hns Hf)).
Defined.

(** In the example run the state evaluation that comes after the fifth
    failure, with no measurement in between, switches the relay back on from
    the level filtered before the failures. *)
Example escalation_then_evaluation :
  let c5 := measure_activity 6000 (None, [MsgSensorTimeout])
              (run failing_trace filled_context) in
  last_valid_level c5 = Some 166
  /\ relais_pin (hw (eval_activity 6700 c5)) = 1
  /\ led_pin (hw (eval_activity 6700 c5)) = false.
Proof. vm_compute. done. Qed.

(* ===================================================================== *)
(** ** The distance sensor *)
(* ===================================================================== *)

(** A distance that is returned lies within the two bounds, and nothing was
    sent to the host. *)
Lemma read_distance_in_range (rc : gmap string Z)
    (responses : list (Z * Z * Z * Z)) (d : Z) (sent : list message) :
  read_distance rc responses = (Some d, sent) ->
  sent = []
  /\ cfg_get rc "SENSOR_TO_WATER_MIN_MM" <= d <= cfg_get rc "TANK_HEIGHT_MM".
Proof.
  induction responses as [|[[[r0 r1] r2] r3] rest IH]; [done|].
  cbn [read_distance]. destruct (_ && _); [| exact IH].
  destruct (Z.leb_spec (cfg_get rc "SENSOR_TO_WATER_MIN_MM") (Z.shiftl r2 8 + r3));
    cbn [andb]; [| done].
  destruct (Z.leb_spec (Z.shiftl r2 8 + r3) (cfg_get rc "TANK_HEIGHT_MM"));
    [| done].
  intros [= <- <-]. split; [done | lia].
Qed.

(** X1 (what a sensor exchange can yield).  A distance returned by
    [read_distance] lies between [SENSOR_TO_WATER_MIN_MM] and
    [TANK_HEIGHT_MM], is [256 * high + low] for a response that carried the
    header, and nothing is sent to the host; a failed exchange sends exactly
    one line, the timeout or the out-of-range distance, and that distance is
    outside the two bounds. *)
Theorem read_distance_sound (rc : gmap string Z)
    (responses : list (Z * Z * Z * Z)) :
  match read_distance rc responses with
  | (Some d, sent) =>
      sent = []
      /\ cfg_get rc "SENSOR_TO_WATER_MIN_MM" <= d <= cfg_get rc "TANK_HEIGHT_MM"
      /\ exists r2 r3, (255, 255, r2, r3) ∈ responses /\ d = 256 * r2 + r3
  | (None, sent) =>
      sent = [MsgSensorTimeout]
      \/ exists d, sent = [MsgUnrealDistance d]
           /\ ~ (cfg_get rc "SENSOR_TO_WATER_MIN_MM" <= d
                    <= cfg_get rc "TANK_HEIGHT_MM")
  end.
Proof.
  induction responses as [|[[[r0 r1] r2] r3] rest IH]; [by left|].
  cbn [read_distance].
  destruct (Z.eqb_spec r0 255) as [->|]; cbn [andb].
  - destruct (Z.eqb_spec r1 255) as [->|].
    + rewrite Z.shiftl_mul_pow2 by lia. change (2 ^ 8) with 256.
      destruct (Z.leb_spec (cfg_get rc "SENSOR_TO_WATER_MIN_MM") (r2 * 256 + r3));
        cbn [andb].
      * destruct (Z.leb_spec (r2 * 256 + r3) (cfg_get rc "TANK_HEIGHT_MM")).
        -- split; [done | split; [lia|]]. exists r2, r3.
           split; [left | lia].
        -- right. eexists. split; [done | lia].
      * right. eexists. split; [done | lia].
    + destruct (read_distance rc rest) as [[d|] sent]; [| done].
      destruct IH as (? & ? & r2' & r3' & ? & ?).
      split; [done | split; [done|]]. exists r2', r3'. split; [by right | done].
  - destruct (read_distance rc rest) as [[d|] sent]; [| done].
    destruct IH as (? & ? & r2' & r3' & ? & ?).
    split; [done | split; [done|]]. exists r2', r3'. split; [by right | done].
Qed.

(** X2 (the first response with the header decides).  Responses without
    the header are skipped and every response after the first one with the
    header is ignored; with no header at all the exchange times out. *)
Theorem read_distance_first_header (rc : gmap string Z)
    (junk rest : list (Z * Z * Z * Z)) (resp : Z * Z * Z * Z) :
  Forall (fun r => has_header r = false) junk ->
  has_header resp = true ->
  read_distance rc (junk ++ resp :: rest) = read_distance rc [resp]
  /\ read_distance rc junk = (None, [MsgSensorTimeout]).
Proof.
  intros Hjunk Hresp. split.
  - induction Hjunk as [|[[[r0 r1] r2] r3] junk Hr _ IH].
    + destruct resp as [[[r0 r1] r2] r3]. cbn [app read_distance].
      cbn in Hresp. rewrite Hresp. by repeat case_match.
    + cbn [app read_distance]. cbn in Hr. by rewrite Hr.
  - induction Hjunk as [|[[[r0 r1] r2] r3] junk Hr _ IH]; [done|].
    cbn [read_distance]. cbn in Hr. by rewrite Hr.
Qed.

Lemma read_distance_first_header_witness :
  Forall (fun r => has_header r = false) [(0, 255, 1, 2); (255, 7, 0, 40)]
  /\ has_header (255, 255, 0, 100) = true
  /\ read_distance default_runtime_cfg
       ([(0, 255, 1, 2); (255, 7, 0, 40)] ++ (255, 255, 0, 100) :: [(255, 255, 0, 50)])
     = read_distance default_runtime_cfg [(255, 255, 0, 100)].
Proof.
  assert (Hj : Forall (fun r => has_header r = false)
                 [(0, 255, 1, 2); (255, 7, 0, 40)]) by (by repeat constructor).
  assert (Hr : has_header (255, 255, 0, 100) = true) by reflexivity.
  split; [exact Hj | split; [exact Hr |]].
  exact (proj1 (read_distance_first_header default_runtime_cfg _
                  [(255, 255, 0, 50)] _ Hj Hr)).
Defined.

(** X3 (frame round trip).  A distance below 65536 that lies within the two
    bounds, sent as header, high byte, low byte, is read back unchanged and
    without any line to the host. *)
Theorem frame_round_trip (rc : gmap string Z) (d : Z) :
  0 <= d < 65536 ->
  cfg_get rc "SENSOR_TO_WATER_MIN_MM" <= d <= cfg_get rc "TANK_HEIGHT_MM" ->
  0 <= d `div` 256 < 256 /\ 0 <= d `mod` 256 < 256
  /\ read_distance rc [(255, 255, d `div` 256, d `mod` 256)] = (Some d, []).
Proof.
  intros Hd Hrange.
  pose proof (Z.div_mod d 256 ltac:(lia)) as Hdm.
  pose proof (Z.mod_pos_bound d 256 ltac:(lia)) as Hm.
  assert (0 <= d `div` 256 < 256)
    by (split; [apply Z.div_pos; lia | apply Z.div_lt_upper_bound; lia]).
  split; [done | split; [done|]].
  cbn [read_distance andb Z.eqb Pos.eqb].
  rewrite Z.shiftl_mul_pow2 by lia. change (2 ^ 8) with 256.
  replace (d `div` 256 * 256 + d `mod` 256) with d by lia.
  destruct (Z.leb_spec (cfg_get rc "SENSOR_TO_WATER_MIN_MM") d); [| lia].
  destruct (Z.leb_spec d (cfg_get rc "TANK_HEIGHT_MM")); [done | lia].
Qed.

Lemma frame_round_trip_witness :
  0 <= 146 < 65536
  /\ read_distance default_runtime_cfg [(255, 255, 146 `div` 256, 146 `mod` 256)]
     = (Some 146, []).
Proof.
  assert (Hd : 0 <= 146 < 65536) by lia.
  assert (Hr : cfg_get default_runtime_cfg "SENSOR_TO_WATER_MIN_MM" <= 146
               <= cfg_get default_runtime_cfg "TANK_HEIGHT_MM")
    by (vm_compute; split; discriminate).
  split; [exact Hd |].
  exact (proj2 (proj2 (frame_round_trip default_runtime_cfg 146 Hd Hr))).
Defined.

(* ===================================================================== *)
(** ** The sample buffer and its average *)
(* ===================================================================== *)

Lemma deque_append_length (x : Z) (d : deque) :
  well_sized d ->
  length (items (deque_append x d))
    = Nat.min (maxlen d) (length (items d) + 1).
Proof.
  unfold well_sized, deque_append. intros Hd. cbn [items].
  rewrite length_app. cbn [length].
  destruct (Nat.ltb_spec (maxlen d) (length (items d) + 1)).
  - rewrite tail_drop, length_drop, length_app. cbn [length]. lia.
  - rewrite length_app. cbn [length]. lia.
Qed.

(** X4 (the buffer never overflows).  Appending to a buffer that holds no
    more than its capacity keeps the capacity, and after any sequence of
    appends the buffer holds as many values as were there and were pushed,
    capped at the capacity. *)
Theorem buffer_never_overflows (xs : list Z) (d : deque) :
  well_sized d ->
  maxlen (push_all xs d) = maxlen d
  /\ length (items (push_all xs d))
       = Nat.min (maxlen d) (length (items d) + length xs)
  /\ well_sized (push_all xs d).
Proof.
  intros Hd.
  assert (Hlen : length (items (push_all xs d))
                 = Nat.min (maxlen d) (length (items d) + length xs)).
  { revert d Hd. induction xs as [|x xs IH]; intros d Hd.
    - unfold well_sized in Hd. cbn. lia.
    - change (push_all (x :: xs) d) with (push_all xs (deque_append x d)).
      pose proof (deque_append_length x d Hd) as Hx.
      rewrite IH by (unfold well_sized; rewrite Hx; cbn; lia).
      rewrite Hx. cbn [maxlen deque_append length]. lia. }
  split; [apply maxlen_push_all | split; [exact Hlen |]].
  unfold well_sized. rewrite Hlen, maxlen_push_all. lia.
Qed.

Lemma buffer_never_overflows_witness :
  well_sized (mkDeque [7; 8] 3)
  /\ length (items (push_all [1; 2; 3; 4] (mkDeque [7; 8] 3))) = 3%nat.
Proof.
  assert (Hd : well_sized (mkDeque [7; 8] 3)) by (unfold well_sized; cbn; lia).
  split; [exact Hd |].
  exact (proj1 (proj2 (buffer_never_overflows [1; 2; 3; 4] _ Hd))).
Defined.

(** The sum of values between two bounds. *)
Lemma sum_bounds (lo hi : Z) (l : list Z) :
  Forall (fun x => lo <= x <= hi) l -> lo * len l <= sum l <= hi * len l.
Proof.
  unfold len. induction 1 as [|x l Hx _ IH]; [cbn; lia|].
  cbn [sum foldr length]. fold (sum l). nia.
Qed.

Lemma filtered_bounds (lo hi : Z) (d : deque) (m : Z) :
  Forall (fun x => lo <= x <= hi) (items d) ->
  get_filtered_level d = Some m -> lo <= m <= hi.
Proof.
  intros Hall Hm. unfold get_filtered_level in Hm.
  destruct (items d) as [|x l] eqn:Hit; [done|]. injection Hm as <-.
  pose proof (sum_bounds lo hi (x :: l) Hall) as Hs.
  change (sum (x :: l)) with (x + sum l) in *.
  assert (Hpos : 0 < len (x :: l)) by (unfold len; cbn [length]; lia).
  split.
  - apply Z.div_le_lower_bound; lia.
  - apply Z.div_le_upper_bound; lia.
Qed.

(** X5 (the average stays within the samples).  When every buffered level
    lies between two bounds, so does the filtered level; in particular a
    buffer of equal levels averages to that level. *)
Theorem filtered_level_within_samples (lo hi : Z) (d : deque) (m : Z) :
  Forall (fun x => lo <= x <= hi) (items d) ->
  get_filtered_level d = Some m ->
  lo <= m <= hi /\ (lo = hi -> m = lo).
Proof.
  intros Hall Hm. pose proof (filtered_bounds lo hi d m Hall Hm). lia.
Qed.

Lemma filtered_level_within_samples_witness :
  Forall (fun x => 10 <= x <= 20) (items (mkDeque [10; 15; 20; 12] 4))
  /\ get_filtered_level (mkDeque [10; 15; 20; 12] 4) = Some 14
  /\ 10 <= 14 <= 20.
Proof.
  assert (Ha : Forall (fun x => 10 <= x <= 20) (items (mkDeque [10; 15; 20; 12] 4)))
    by (repeat constructor; lia).
  assert (Hm : get_filtered_level (mkDeque [10; 15; 20; 12] 4) = Some 14)
    by reflexivity.
  split; [exact Ha | split; [exact Hm |]].
  exact (proj1 (filtered_level_within_samples 10 20 _ 14 Ha Hm)).
Defined.

(** X6 (the level of an accepted distance).  For a distance [read_distance]
    accepted under the current configuration, the measurement appends
    exactly [TANK_HEIGHT_MM - d] to the buffer: the clamp at 0 is not needed,
    and that level is at most [TANK_HEIGHT_MM - SENSOR_TO_WATER_MIN_MM]. *)
Theorem accepted_distance_level (now : Z) (responses : list (Z * Z * Z * Z))
    (d : Z) (sent : list message) (c : context) :
  read_distance (runtime_cfg c) responses = (Some d, sent) ->
  let level := cfg_get (runtime_cfg c) "TANK_HEIGHT_MM" - d in
  samples (measure_activity now (Some d, sent) c)
    = deque_append level (samples c)
  /\ 0 <= level
       <= cfg_get (runtime_cfg c) "TANK_HEIGHT_MM"
          - cfg_get (runtime_cfg c) "SENSOR_TO_WATER_MIN_MM"
  /\ output (measure_activity now (Some d, sent) c)
       = output c
         ++ [MsgWaterLevel
               (get_filtered_level (deque_append level (samples c)))].
Proof.
  intros Hread. cbv zeta.
  destruct (read_distance_in_range _ _ _ _ Hread) as [-> Hrange].
  unfold measure_activity. rewrite send_all_eq. ctx_fields c. ctx_simpl.
  rewrite Z.max_r by lia. rewrite (right_id_L [] (++)).
  split; [done | split; [lia | done]].
Qed.

Lemma accepted_distance_level_witness :
  read_distance (runtime_cfg boot_context) [(7, 0, 0, 0); (255, 255, 0, 30)]
    = (Some 30, [])
  /\ samples (measure_activity 1000 (Some 30, []) boot_context)
     = deque_append (cfg_get (runtime_cfg boot_context) "TANK_HEIGHT_MM" - 30)
         (samples boot_context).
Proof.
  assert (Hr : read_distance (runtime_cfg boot_context)
                 [(7, 0, 0, 0); (255, 255, 0, 30)] = (Some 30, []))
    by (vm_compute; reflexivity).
  split; [exact Hr |].
  exact (proj1 (accepted_distance_level 1000 _ 30 [] boot_context Hr)).
Defined.

(* ===================================================================== *)
(** ** More on the alarm state machine *)
(* ===================================================================== *)

(** Deciding every comparison of one evaluation against the hypotheses. *)
Ltac alarm_decide :=
  unfold alarm_result, update_alarm_logic, out_state, out_led, out_interval,
    out_relay, threshold_order, state_known, OK, LOW, BOTTOM in *;
  cbn [fst snd] in *;
  repeat match goal with
  | |- context [Z.leb ?a ?b] => destruct (Z.leb_spec a b)
  | |- context [Z.geb ?a ?b] => destruct (Z.geb_spec a b)
  | |- context [Z.gtb ?a ?b] => destruct (Z.gtb_spec a b)
  | |- context [Z.eqb ?a ?b] => destruct (Z.eqb_spec a b)
  end;
  cbn [fst snd] in *; try lia; try done.

(** X7 (both dead bands hold the state).  Under the threshold ordering, a
    level above [bot_on] and at most [bot_off] leaves BOTTOM in BOTTOM and
    LOW in LOW, and a level strictly between [crit_on] and [crit_off] leaves
    LOW in LOW and OK in OK: inside a band the state is the one the level
    came from. *)
Theorem dead_bands_hold_state (rc : gmap string Z) (w : Z) (led : bool)
    (hw : pins) :
  threshold_order rc ->
  let next s := out_state (alarm_result rc (Some w) s led hw) in
  (cfg_get rc "BOTTOM_LEVEL_ON_MM" < w <= cfg_get rc "BOTTOM_LEVEL_OFF_MM" ->
     next BOTTOM = BOTTOM /\ next LOW = LOW)
  /\ (cfg_get rc "CRITICAL_LEVEL_ON_MM" < w < cfg_get rc "CRITICAL_LEVEL_OFF_MM" ->
     next LOW = LOW /\ next OK = OK).
Proof.
  intros Hord. cbv zeta. split; intros Hw; split; alarm_decide.
Qed.

Lemma dead_bands_hold_state_witness :
  threshold_order default_runtime_cfg
  /\ out_state (alarm_result default_runtime_cfg (Some 60) BOTTOM false
                  (mkPins true 0)) = BOTTOM
  /\ out_state (alarm_result default_runtime_cfg (Some 60) LOW false
                  (mkPins true 0)) = LOW.
Proof.
  assert (Ho : threshold_order default_runtime_cfg)
    by (unfold threshold_order; vm_compute; intuition congruence).
  split; [exact Ho |].
  apply (proj1 (dead_bands_hold_state default_runtime_cfg 60 false
                  (mkPins true 0) Ho)).
  vm_compute. split; [reflexivity | discriminate].
Defined.

(** X8 (the relay is switched off only on a low level).  When
    [bot_on <= bot_off], the alarm logic asks for relay 0 only with an
    available level at or below [bot_off] and from LOW or BOTTOM; so with a
    level above [bot_off], or with no level, it always asks for relay 1. *)
Theorem relay_off_only_when_low (rc : gmap string Z) (waterlevel : option Z)
    (prev_state : Z) (led : bool) (hw : pins) :
  cfg_get rc "BOTTOM_LEVEL_ON_MM" <= cfg_get rc "BOTTOM_LEVEL_OFF_MM" ->
  out_relay (alarm_result rc waterlevel prev_state led hw) = 0 ->
  (prev_state = LOW \/ prev_state = BOTTOM)
  /\ exists w, waterlevel = Some w /\ w <= cfg_get rc "BOTTOM_LEVEL_OFF_MM".
Proof.
  intros Hb Hr. destruct waterlevel as [w|]; [| done].
  split; [| exists w; split; [done|]]; revert Hr; alarm_decide; auto.
Qed.

Lemma relay_off_only_when_low_witness :
  out_relay (alarm_result default_runtime_cfg (Some 40) LOW false
               (mkPins false 1)) = 0
  /\ exists w, Some 40 = Some w
        /\ w <= cfg_get default_runtime_cfg "BOTTOM_LEVEL_OFF_MM".
Proof.
  assert (Hb : cfg_get default_runtime_cfg "BOTTOM_LEVEL_ON_MM"
               <= cfg_get default_runtime_cfg "BOTTOM_LEVEL_OFF_MM")
    by (vm_compute; discriminate).
  assert (Hr : out_relay (alarm_result default_runtime_cfg (Some 40) LOW false
                            (mkPins false 1)) = 0) by (vm_compute; reflexivity).
  split; [exact Hr |].
  exact (proj2 (relay_off_only_when_low default_runtime_cfg (Some 40) LOW false
                  (mkPins false 1) Hb Hr)).
Defined.

(** Two evaluations at an unchanged level. *)
Lemma alarm_run_cons rc w levels s led hw :
  alarm_run rc (w :: levels) s led hw =
    alarm_run rc levels
      (out_state (alarm_result rc (Some w) s led hw))
      (out_led (alarm_result rc (Some w) s led hw))
      (update_alarm_logic rc (Some w) s led hw).1.
Proof.
  cbn [alarm_run]. unfold alarm_result, out_state, out_led.
  by destruct (update_alarm_logic rc (Some w) s led hw) as [hw1 [[[s1 l1] i1] g1]].
Qed.

(** X9 (a steady level settles in two evaluations).  Under the threshold
    ordering and from any of the three states, re-evaluating at a level that
    stays at or below [bot_on] ends in BOTTOM after two or more evaluations,
    and at a level that stays at or above [crit_off] it ends in OK. *)
Theorem steady_level_settles (rc : gmap string Z) (w s : Z) (n : nat)
    (led : bool) (hw : pins) :
  threshold_order rc -> state_known s -> (2 <= n)%nat ->
  (w <= cfg_get rc "BOTTOM_LEVEL_ON_MM" ->
     (alarm_run rc (replicate n w) s led hw).2.1 = BOTTOM)
  /\ (cfg_get rc "CRITICAL_LEVEL_OFF_MM" <= w ->
     (alarm_run rc (replicate n w) s led hw).2.1 = OK).
Proof.
  intros Hord Hs Hn.
  assert (Hstay : forall target,
            (forall l h, out_state (alarm_result rc (Some w) target l h) = target) ->
            forall k l h, (alarm_run rc (replicate k w) target l h).2.1 = target).
  { intros target Hfix k. induction k as [|k IH]; intros l h; [done|].
    cbn [replicate]. rewrite alarm_run_cons, Hfix. apply IH. }
  destruct n as [|[|n]]; [lia | lia |]. cbn [replicate].
  split; intros Hw; rewrite !alarm_run_cons.
  - assert (Hfix : forall l h,
              out_state (alarm_result rc (Some w) BOTTOM l h) = BOTTOM)
      by (intros; alarm_decide).
    assert (H2 : forall l h l' h',
              out_state (alarm_result rc (Some w)
                (out_state (alarm_result rc (Some w) s l h)) l' h') = BOTTOM).
    { intros. destruct Hs as [-> | [-> | ->]]; alarm_decide. }
    rewrite H2. by apply Hstay.
  - assert (Hfix : forall l h,
              out_state (alarm_result rc (Some w) OK l h) = OK)
      by (intros; alarm_decide).
    assert (H2 : forall l h l' h',
              out_state (alarm_result rc (Some w)
                (out_state (alarm_result rc (Some w) s l h)) l' h') = OK).
    { intros. destruct Hs as [-> | [-> | ->]]; alarm_decide. }
    rewrite H2. by apply Hstay.
Qed.

Lemma steady_level_settles_witness :
  threshold_order default_runtime_cfg /\ state_known OK /\ (2 <= 3)%nat
  /\ (alarm_run default_runtime_cfg (replicate 3 40) OK false
        (mkPins false 1)).2.1 = BOTTOM.
Proof.
  assert (Ho : threshold_order default_runtime_cfg)
    by (unfold threshold_order; vm_compute; intuition congruence).
  assert (Hs : state_known OK) by (by left).
  assert (Hn : (2 <= 3)%nat) by lia.
  split; [exact Ho | split; [exact Hs | split; [exact Hn |]]].
  apply (proj1 (steady_level_settles default_runtime_cfg 40 OK 3 false
                  (mkPins false 1) Ho Hs Hn)).
  vm_compute. discriminate.
Defined.

(** X10 (what the alarm logic does to the pins).  Every evaluation writes
    the LED pin with the LED flag it returns and leaves the relay pin as it
    was; and whenever the state returned is OK, the LED is off and the relay
    asked for is 1. *)
Theorem alarm_logic_pins (rc : gmap string Z) (waterlevel : option Z)
    (prev_state : Z) (led : bool) (hw : pins) :
  let r := alarm_result rc waterlevel prev_state led hw in
  (update_alarm_logic rc waterlevel prev_state led hw).1
    = mkPins (out_led r) (relais_pin hw)
  /\ (out_state r = OK -> out_led r = false /\ out_relay r = 1)
  /\ (out_led r = true -> out_state r = LOW \/ out_state r = BOTTOM).
Proof.
  cbv zeta. split; [| split].
  - destruct waterlevel; alarm_decide.
  - destruct waterlevel; alarm_decide; intros; (try lia); (try done); auto.
  - destruct waterlevel; alarm_decide; intros; (try lia); (try done); auto.
Qed.

(* ===================================================================== *)
(** ** More on the configuration store *)
(* ===================================================================== *)

Lemma filter_all_false {A : Type} (f : A -> bool) (l : list A) :
  (forall x, x ∈ l -> f x = false) -> List.filter f l = [].
Proof.
  induction l as [|x l IH]; intros Hf; [done|].
  cbn [List.filter]. rewrite Hf by left. apply IH.
  intros y Hy. apply Hf. by right.
Qed.

Section ConfigStoreExtras.
Context {V : Type} `{PyNe V}.

(** With nothing to change among the runtime keys the update is the
    identity and reports nothing. *)
Lemma update_nothing_to_change (runtime_cfg new_cfg : gmap string V) :
  runtime_complete runtime_cfg ->
  (forall k, k ∈ RUNTIME_KEYS -> to_change runtime_cfg new_cfg k = false) ->
  update_runtime_cfg runtime_cfg new_cfg = (runtime_cfg, Some []).
Proof.
  intros Hall Hno.
  destruct (update_keys_spec RUNTIME_KEYS new_cfg runtime_cfg []
              RUNTIME_KEYS_NoDup Hall) as (rc' & Hrun & Hlk).
  unfold update_runtime_cfg. rewrite Hrun.
  rewrite (filter_all_false _ _ Hno). cbn [app]. f_equal.
  apply map_eq. intros k. rewrite Hlk. case_bool_decide as Hk; [| done].
  by rewrite Hno.
Qed.

(** X11 (applying a payload twice).  When [!=] never tells a payload value
    from itself, applying the same payload a second time reports no key and
    leaves the runtime configuration as the first application made it. *)
Theorem update_runtime_cfg_idempotent (runtime_cfg new_cfg : gmap string V) :
  runtime_complete runtime_cfg ->
  (forall k v, new_cfg !! k = Some v -> py_ne v v = false) ->
  update_runtime_cfg (update_runtime_cfg runtime_cfg new_cfg).1 new_cfg
    = ((update_runtime_cfg runtime_cfg new_cfg).1, Some []).
Proof.
  intros Hall Hrefl.
  destruct (update_keys_spec RUNTIME_KEYS new_cfg runtime_cfg []
              RUNTIME_KEYS_NoDup Hall) as (rc' & Hrun & Hlk).
  unfold update_runtime_cfg at 2 3. rewrite Hrun. cbn [fst].
  assert (Hcur : forall k, k ∈ RUNTIME_KEYS -> is_Some (runtime_cfg !! k))
    by (by apply Forall_forall).
  apply update_nothing_to_change.
  - apply Forall_forall. intros k Hk. rewrite Hlk.
    rewrite (bool_decide_eq_true_2 _ Hk). cbn [andb].
    destruct (to_change runtime_cfg new_cfg k) eqn:Htc; [| by apply Hcur].
    unfold to_change in Htc. destruct (new_cfg !! k); [by eexists | done].
  - intros k Hk. unfold to_change at 1. rewrite Hlk.
    rewrite (bool_decide_eq_true_2 _ Hk). cbn [andb].
    destruct (new_cfg !! k) as [nv|] eqn:Hnew; [| done].
    destruct (to_change runtime_cfg new_cfg k) eqn:Htc.
    + by eapply Hrefl.
    + unfold to_change in Htc. rewrite Hnew in Htc.
      destruct (Hcur k Hk) as [cur Hc]. by rewrite Hc in Htc |- *.
Qed.

(** A key without a current value stays without one while other keys are
    looped over, and makes the loop raise when its turn comes. *)
Lemma update_keys_key_error (keys : list string)
    (new_cfg runtime_cfg : gmap string V) (changes : list string) k v :
  k ∈ keys -> new_cfg !! k = Some v -> runtime_cfg !! k = None ->
  (update_keys keys new_cfg runtime_cfg changes).2 = None.
Proof.
  revert runtime_cfg changes.
  induction keys as [|k0 rest IH]; intros rc changes Hk Hnew Hcur.
  - by apply elem_of_nil in Hk.
  - cbn [update_keys]. destruct (decide (k0 = k)) as [->|Hne].
    + by rewrite Hnew, Hcur.
    + apply elem_of_cons in Hk as [?|Hk]; [congruence|].
      destruct (new_cfg !! k0) as [nv|]; [| by apply IH].
      destruct (rc !! k0) as [cur|]; [| done].
      destruct (py_ne nv cur); apply IH; try done.
      by rewrite lookup_insert_ne.
Qed.

(** X12 (a runtime key without a current value).  When the payload has a
    whitelisted key for which the runtime configuration holds no value,
    [update_runtime_cfg] raises [KeyError] instead of returning a list. *)
Theorem update_runtime_cfg_key_error (runtime_cfg new_cfg : gmap string V) k v :
  k ∈ RUNTIME_KEYS -> new_cfg !! k = Some v -> runtime_cfg !! k = None ->
  (update_runtime_cfg runtime_cfg new_cfg).2 = None.
Proof. apply update_keys_key_error. Qed.

Lemma pick_keys_lookup (keys : list string) (cfg rc : gmap string V) :
  pick_keys keys cfg = Some rc ->
  forall k, rc !! k = if bool_decide (k ∈ keys) then cfg !! k else None.
Proof.
  revert rc. induction keys as [|k0 rest IH]; intros rc Hpick k.
  - injection Hpick as <-. by rewrite lookup_empty.
  - cbn [pick_keys] in Hpick. destruct (cfg !! k0) as [v|] eqn:Hv; [| done].
    destruct (pick_keys rest cfg) as [m|]; [| done]. injection Hpick as <-.
    destruct (decide (k = k0)) as [->|Hne].
    + rewrite lookup_insert_eq, bool_decide_eq_true_2 by left. done.
    + rewrite lookup_insert_ne by done. rewrite (IH m eq_refl k).
      by rewrite (mem_cons_ne k0 k rest Hne).
Qed.

Lemma pick_keys_None (keys : list string) (cfg : gmap string V) :
  pick_keys keys cfg = None <-> exists k, k ∈ keys /\ cfg !! k = None.
Proof.
  induction keys as [|k0 rest IH].
  - split; [done|]. intros (k & Hk & _). by apply elem_of_nil in Hk.
  - cbn [pick_keys]. destruct (cfg !! k0) as [v|] eqn:Hv.
    + destruct (pick_keys rest cfg) as [m|].
      * split; [done|]. intros (k & Hk & Hnone).
        apply elem_of_cons in Hk as [->|Hk]; [congruence|].
        exfalso. assert (Some m = None) as Heq; [| done].
        apply IH. by exists k.
      * split; [| done]. intros _. destruct (proj1 IH eq_refl) as (k & Hk & Hn).
        exists k. split; [by right | done].
    + split; [| done]. intros _. exists k0. split; [left | done].
Qed.

(** X13 (the runtime configuration built at start-up).  Building it raises
    [KeyError] exactly when the loaded configuration lacks a runtime key; and
    when it is built, it holds the loaded value of every runtime key and no
    other key: the window size and the two pin numbers are not part of it. *)
Theorem init_runtime_cfg_spec (cfg : gmap string V) :
  (init_runtime_cfg cfg = None
     <-> exists k, k ∈ RUNTIME_KEYS /\ cfg !! k = None)
  /\ (forall rc, init_runtime_cfg cfg = Some rc ->
        (forall k, k ∈ RUNTIME_KEYS -> rc !! k = cfg !! k)
        /\ (forall k, k ∉ RUNTIME_KEYS -> rc !! k = None)
        /\ rc !! "MOVING_AVG_N" = None /\ rc !! "LED_PIN" = None
        /\ rc !! "RELAY_PIN" = None).
Proof.
  split; [apply pick_keys_None|].
  intros rc Hrc. pose proof (pick_keys_lookup _ _ _ Hrc) as Hlk.
  assert (Hout : forall k, k ∉ RUNTIME_KEYS -> rc !! k = None).
  { intros k Hk. rewrite Hlk. by rewrite bool_decide_eq_false_2. }
  split; [| split; [exact Hout |]].
  - intros k Hk. rewrite Hlk. by rewrite bool_decide_eq_true_2.
  - split; [| split]; apply Hout.
    + apply MOVING_AVG_N_boot_only.
    + apply LED_PIN_boot_only.
    + apply RELAY_PIN_boot_only.
Qed.

End ConfigStoreExtras.

Lemma update_runtime_cfg_idempotent_witness :
  runtime_complete default_runtime_cfg
  /\ update_runtime_cfg
       (update_runtime_cfg default_runtime_cfg {["SLOW_BLINK_MS" := 500]}).1
       {["SLOW_BLINK_MS" := 500]}
     = ((update_runtime_cfg default_runtime_cfg {["SLOW_BLINK_MS" := 500]}).1,
        Some []).
Proof.
  split; [exact default_runtime_complete |].
  apply (update_runtime_cfg_idempotent default_runtime_cfg
           {["SLOW_BLINK_MS" := 500]} default_runtime_complete).
  intros k v _. unfold py_ne, Z_PyNe. by rewrite Z.eqb_refl.
Defined.

Lemma update_runtime_cfg_key_error_witness :
  "FAST_BLINK_MS" ∈ RUNTIME_KEYS
  /\ (update_runtime_cfg (∅ : gmap string Z) {["FAST_BLINK_MS" := 100]}).2 = None.
Proof.
  assert (Hk : "FAST_BLINK_MS" ∈ RUNTIME_KEYS)
    by (apply (bool_decide_unpack _); vm_compute; exact I).
  split; [exact Hk |].
  exact (update_runtime_cfg_key_error (∅ : gmap string Z)
           {["FAST_BLINK_MS" := 100]} "FAST_BLINK_MS" 100 Hk
           (lookup_singleton_eq _ _) (lookup_empty _)).
Defined.

(** On a document that is not an object the loop can only return the
    document itself. *)
Lemma fill_defaults_not_dict (its : list (string * pyval)) (config c : pyval) :
  (forall m, config <> PDict m) ->
  fill_defaults its config = Some c -> c = config.
Proof.
  intros Hnd. induction its as [|[k v] rest IH]; [by intros [= <-]|].
  cbn [fill_defaults]. destruct (py_contains config k) as [[|]|]; [exact IH | | done].
  destruct config; try done. by destruct (Hnd m).
Qed.

(** What [load_config] returns, when it is a dictionary, is some dictionary
    completed by the defaults. *)
Lemma load_config_dict_form (file : file_read pyval) (m' : gmap string pyval) :
  (load_config file).1 = PDict m' -> exists m, m' = m ∪ defaults.
Proof.
  assert (Hdef : forall m0, PDict defaults = PDict m0 -> exists m, m0 = m ∪ defaults).
  { intros m0 [= <-]. exists ∅. by rewrite (left_id_L ∅ (∪)). }
  destruct file as [| |doc]; [apply Hdef | apply Hdef |].
  unfold load_config.
  destruct (fill_defaults default_items doc) as [c|] eqn:Hfill; [| apply Hdef].
  cbv beta iota delta [fst]. intros ->.
  destruct doc as [| | | | | |m].
  7: { rewrite fill_defaults_dict in Hfill. injection Hfill as <-. by exists m. }
  all: by apply fill_defaults_not_dict in Hfill.
Qed.

(** X14 (loading what was loaded).  Whatever reading the file yielded, a
    document equal to the configuration [load_config] returned is loaded
    back unchanged and without warning. *)
Theorem load_config_idempotent (file : file_read pyval) :
  load_config (Document (load_config file).1) = ((load_config file).1, false).
Proof.
  assert (Hdef : load_config (Document (PDict defaults)) = (PDict defaults, false)).
  { unfold load_config. rewrite fill_defaults_dict. fold defaults.
    by rewrite (idemp_L (∪) defaults). }
  destruct file as [| |doc]; [exact Hdef | exact Hdef |].
  unfold load_config at 2 3.
  destruct (fill_defaults default_items doc) as [c|] eqn:Hfill; [| exact Hdef].
  cbv beta iota delta [fst]. unfold load_config.
  destruct doc as [| | | | | |m].
  7: { rewrite fill_defaults_dict in Hfill. injection Hfill as <-.
       rewrite fill_defaults_dict. fold defaults.
       by rewrite <- (assoc_L (∪)), (idemp_L (∪) defaults). }
  all: assert (Hc := Hfill); apply fill_defaults_not_dict in Hc; [| done];
    subst c; by rewrite Hfill.
Qed.

Lemma defaults_complete : Forall (fun k => is_Some (defaults !! k)) CONFIG_KEYS.
Proof. apply (bool_decide_unpack _). vm_compute. exact I. Qed.

Lemma RUNTIME_KEYS_recognised : Forall (fun k => k ∈ CONFIG_KEYS) RUNTIME_KEYS.
Proof. apply (bool_decide_unpack _). vm_compute. exact I. Qed.

(** X15 (start-up never misses a key).  Whenever [load_config] returns a
    dictionary, it holds a value for every recognised key, so the start-up
    lookups of [LED_PIN], [RELAY_PIN] and [MOVING_AVG_N] find a value and
    building the runtime configuration raises no [KeyError]; keys of the
    document that are not recognised are still there. *)
Theorem startup_finds_every_key (file : file_read pyval)
    (cfg : gmap string pyval) :
  (load_config file).1 = PDict cfg ->
  (forall k, k ∈ CONFIG_KEYS -> is_Some (cfg !! k))
  /\ (exists rc, init_runtime_cfg cfg = Some rc)
  /\ (forall m k v, file = Document (PDict m) -> m !! k = Some v ->
        cfg !! k = Some v).
Proof.
  intros Hload.
  destruct (load_config_dict_form file cfg Hload) as [m ->].
  assert (Hall : forall k, k ∈ CONFIG_KEYS -> is_Some ((m ∪ defaults) !! k)).
  { intros k Hk. apply lookup_union_is_Some. right.
    by apply (proj1 (Forall_forall _ _) defaults_complete). }
  split; [exact Hall | split].
  - destruct (init_runtime_cfg (m ∪ defaults)) as [rc|] eqn:Hinit; [by eexists|].
    apply pick_keys_None in Hinit as (k & Hk & Hnone).
    apply (proj1 (Forall_forall _ _) RUNTIME_KEYS_recognised), Hall in Hk.
    rewrite Hnone in Hk. by destruct Hk.
  - intros m0 k v -> Hk. unfold load_config in Hload.
    rewrite fill_defaults_dict in Hload. cbv beta iota delta [fst] in Hload.
    injection Hload as Hm. fold defaults in Hm. rewrite <- Hm.
    by apply lookup_union_Some_l.
Qed.

Lemma startup_finds_every_key_witness :
  (load_config (Document (PDict {["LED_PIN" := PInt 2]}))).1
    = PDict ({["LED_PIN" := PInt 2]} ∪ defaults)
  /\ exists rc,
       init_runtime_cfg ({["LED_PIN" := PInt 2]} ∪ defaults) = Some rc.
Proof.
  assert (Hl : (load_config (Document (PDict {["LED_PIN" := PInt 2]}))).1
               = PDict ({["LED_PIN" := PInt 2]} ∪ defaults)).
  { unfold load_config. by rewrite fill_defaults_dict. }
  split; [exact Hl |].
  exact (proj1 (proj2 (startup_finds_every_key _ _ Hl))).
Defined.

(* ===================================================================== *)
(** ** More on the scheduler *)
(* ===================================================================== *)

(** X16 (relay write suppression).  A state evaluation whose desired relay
    value is the one recorded in [relais_actief] writes nothing to the relay
    pin and sends no line; otherwise it writes the desired value, records it
    and sends exactly one relay line. *)
Theorem relay_write_suppression (now : Z) (c : context) :
  let r := alarm_result (runtime_cfg c) (last_valid_level c) (level_state c)
             (led_status c) (hw c) in
  let c' := eval_activity now c in
  (relais_actief c = Some (out_relay r) ->
     output c' = output c /\ relais_pin (hw c') = relais_pin (hw c)
     /\ relais_actief c' = relais_actief c)
  /\ (relais_actief c <> Some (out_relay r) ->
     output c' = output c ++ [MsgRelay (out_relay r)]
     /\ relais_pin (hw c') = out_relay r
     /\ relais_actief c' = Some (out_relay r)).
Proof.
  cbv zeta. unfold eval_activity.
  pose proof (alarm_led_pin (runtime_cfg c) (last_valid_level c)
                (level_state c) (led_status c) (hw c)) as Hpin.
  unfold alarm_result in *.
  destruct (update_alarm_logic _ _ _ _ _) as [hw1 [[[s l] i] g]].
  cbn [fst snd] in Hpin. subst hw1. unfold out_led, out_relay. cbn [fst snd].
  ctx_fields c. ctx_simpl.
  split; intros Hact; case_bool_decide; try done.
Qed.

(** X17 (no escalation below five failures).  A failed measurement that
    leaves the error counter below 5 writes no pin and changes neither the
    relay record, nor the buffer, nor the last filtered level; it only counts
    the failure and reports it. *)
Theorem no_escalation_below_five (now : Z) (sent : list message) (c : context) :
  error_count c < 4 ->
  let c' := measure_activity now (None, sent) c in
  hw c' = hw c /\ relais_actief c' = relais_actief c
  /\ samples c' = samples c /\ last_valid_level c' = last_valid_level c
  /\ error_count c' = error_count c + 1
  /\ output c' = output c ++ sent ++ [MsgSensorFault].
Proof.
  intros Hcnt. cbv zeta. unfold measure_activity. rewrite send_all_eq.
  ctx_fields c. ctx_simpl.
  destruct (Z.geb_spec (ec + 1) 5); [lia|].
  by rewrite <- (assoc_L (++)).
Qed.

Lemma no_escalation_below_five_witness :
  error_count filled_context < 4
  /\ hw (measure_activity 2000 (None, [MsgSensorTimeout]) filled_context)
     = hw filled_context.
Proof.
  assert (Hc : error_count filled_context < 4) by (vm_compute; reflexivity).
  split; [exact Hc |].
  exact (proj1 (no_escalation_below_five 2000 [MsgSensorTimeout]
                  filled_context Hc)).
Defined.

(** The test of the configuration check, by cases. *)
Lemma config_activity_unfold now cfg_hash file c :
  config_activity now cfg_hash file c =
    set_last_cfg_check now
      (if truthy cfg_hash && negb (bool_decide (cfg_hash = last_cfg_hash c)) then
         match file with
         | Document new_cfg =>
             match update_runtime_cfg (runtime_cfg c) new_cfg with
             | (rc', Some changes) =>
                 set_last_cfg_hash cfg_hash
                   (match changes with
                    | [] => set_runtime_cfg rc' c
                    | _ :: _ =>
                        send_output (MsgConfigUpdate changes)
                          (set_runtime_cfg rc' c)
                    end)
             | (rc', None) => send_output MsgReloadError (set_runtime_cfg rc' c)
             end
         | Unreadable | Malformed => send_output MsgReloadError c
         end
       else c).
Proof. reflexivity. Qed.

(** X18 (a digest that is not new).  When [file_md5] returns nothing, an
    empty digest, or the digest stored at the last successful reload, the
    configuration check re-reads nothing: it only records the time of the
    check. *)
Theorem config_check_without_new_digest (now : Z) (cfg_hash : option (list Z))
    (file : file_read (gmap string Z)) (c : context) :
  cfg_hash = None \/ cfg_hash = Some [] \/ cfg_hash = last_cfg_hash c ->
  config_activity now cfg_hash file c = set_last_cfg_check now c.
Proof.
  intros Hh. rewrite config_activity_unfold.
  destruct Hh as [-> | [-> | Hh]]; [done | done |].
  rewrite (bool_decide_eq_true_2 _ Hh). by rewrite andb_false_r.
Qed.

Lemma config_check_without_new_digest_witness :
  config_activity 5000 (last_cfg_hash boot_context) Malformed boot_context
    = set_last_cfg_check 5000 boot_context.
Proof.
  apply config_check_without_new_digest. right. right. reflexivity.
Defined.

(** X19 (a reload that fails).  When the digest is new but the file cannot
    be read or parsed, the runtime configuration and the stored digest stay
    as they were and one error line is sent; the digest being still new, the
    next check tries again. *)
Theorem reload_failure_keeps_config (now : Z) (cfg_hash : option (list Z))
    (file : file_read (gmap string Z)) (c : context) :
  truthy cfg_hash = true -> cfg_hash <> last_cfg_hash c ->
  file = Unreadable \/ file = Malformed ->
  let c' := config_activity now cfg_hash file c in
  runtime_cfg c' = runtime_cfg c
  /\ last_cfg_hash c' = last_cfg_hash c
  /\ output c' = output c ++ [MsgReloadError]
  /\ last_cfg_check c' = now
  /\ truthy cfg_hash && negb (bool_decide (cfg_hash = last_cfg_hash c')) = true.
Proof.
  intros Ht Hnew Hfile. cbv zeta. rewrite config_activity_unfold.
  rewrite Ht, (bool_decide_eq_false_2 _ Hnew). cbn [andb negb].
  assert (Hsame : last_cfg_hash
            (set_last_cfg_check now (send_output MsgReloadError c))
            = last_cfg_hash c) by (by ctx_fields c).
  destruct Hfile as [-> | ->]; rewrite Hsame;
    rewrite (bool_decide_eq_false_2 _ Hnew); by ctx_fields c.
Qed.

Lemma reload_failure_keeps_config_witness :
  truthy (Some [1; 2]) = true
  /\ Some [1; 2] <> last_cfg_hash boot_context
  /\ runtime_cfg (config_activity 5000 (Some [1; 2]) Malformed boot_context)
     = runtime_cfg boot_context.
Proof.
  assert (Ht : truthy (Some [1; 2]) = true) by reflexivity.
  assert (Hn : Some [1; 2] <> last_cfg_hash boot_context) by discriminate.
  split; [exact Ht | split; [exact Hn |]].
  exact (proj1 (reload_failure_keeps_config 5000 (Some [1; 2]) Malformed
                  boot_context Ht Hn (or_intror eq_refl))).
Defined.

(** X20 (a reload that succeeds).  When the digest is new and the file
    parses to an object, on a runtime configuration that has every runtime
    key: the runtime configuration becomes the updated one, the digest is
    stored, the only line sent is the list of changed keys when there is one,
    and the alarm state, the LED flag, the evaluation interval in force, the
    buffer and the pins are untouched; a further check with the same digest
    then only records its time. *)
Theorem reload_success_applies_once (now : Z) (cfg_hash : option (list Z))
    (new_cfg : gmap string Z) (c : context) :
  runtime_complete (runtime_cfg c) ->
  truthy cfg_hash = true -> cfg_hash <> last_cfg_hash c ->
  let changed :=
    List.filter (to_change (runtime_cfg c) new_cfg) RUNTIME_KEYS in
  let c' := config_activity now cfg_hash (Document new_cfg) c in
  runtime_cfg c' = (update_runtime_cfg (runtime_cfg c) new_cfg).1
  /\ last_cfg_hash c' = cfg_hash
  /\ output c' = output c
       ++ match changed with [] => [] | _ :: _ => [MsgConfigUpdate changed] end
  /\ (level_state c' = level_state c /\ led_status c' = led_status c
      /\ blink_interval c' = blink_interval c /\ samples c' = samples c
      /\ last_valid_level c' = last_valid_level c /\ hw c' = hw c)
  /\ forall now2 file2,
       config_activity now2 cfg_hash file2 c' = set_last_cfg_check now2 c'.
Proof.
  intros Hall Ht Hnew. cbv zeta.
  destruct (update_keys_spec RUNTIME_KEYS new_cfg (runtime_cfg c) []
              RUNTIME_KEYS_NoDup Hall) as (rc' & Hrun & _).
  cbn [app] in Hrun.
  assert (Hstored : last_cfg_hash
            (config_activity now cfg_hash (Document new_cfg) c) = cfg_hash).
  { rewrite config_activity_unfold.
    rewrite Ht, (bool_decide_eq_false_2 _ Hnew). cbn [andb negb].
    unfold update_runtime_cfg. rewrite Hrun.
    destruct (List.filter _ _); by ctx_fields c. }
  split; [| split; [exact Hstored | split; [| split]]].
  - rewrite config_activity_unfold.
    rewrite Ht, (bool_decide_eq_false_2 _ Hnew). cbn [andb negb].
    unfold update_runtime_cfg. rewrite Hrun.
    destruct (List.filter _ _); by ctx_fields c.
  - rewrite config_activity_unfold.
    rewrite Ht, (bool_decide_eq_false_2 _ Hnew). cbn [andb negb].
    unfold update_runtime_cfg. rewrite Hrun.
    destruct (List.filter _ _); ctx_fields c; ctx_simpl;
      [by rewrite (right_id_L [] (++)) | done].
  - rewrite config_activity_unfold.
    rewrite Ht, (bool_decide_eq_false_2 _ Hnew). cbn [andb negb].
    unfold update_runtime_cfg. rewrite Hrun.
    destruct (List.filter _ _); by ctx_fields c.
  - intros now2 file2. rewrite (config_activity_unfold now2).
    rewrite Hstored, (bool_decide_eq_true_2 _ eq_refl).
    by rewrite andb_false_r.
Qed.

Lemma reload_success_applies_once_witness :
  runtime_complete (runtime_cfg boot_context)
  /\ truthy (Some [9]) = true
  /\ Some [9] <> last_cfg_hash boot_context
  /\ last_cfg_hash
       (config_activity 5000 (Some [9])
          (Document {["CRITICAL_LEVEL_ON_MM" := 140]}) boot_context)
     = Some [9].
Proof.
  assert (Hc : runtime_complete (runtime_cfg boot_context))
    by exact default_runtime_complete.
  assert (Ht : truthy (Some [9]) = true) by reflexivity.
  assert (Hn : Some [9] <> last_cfg_hash boot_context) by discriminate.
  split; [exact Hc | split; [exact Ht | split; [exact Hn |]]].
  exact (proj1 (proj2 (reload_success_applies_once 5000 (Some [9])
                         {["CRITICAL_LEVEL_ON_MM" := 140]} boot_context
                         Hc Ht Hn))).
Defined.

(** The configuration check touches only the runtime configuration, the
    stored digest, the time of the check and the output. *)
Lemma config_activity_frame_state now cfg_hash file c :
  let c' := config_activity now cfg_hash file c in
  samples c' = samples c /\ level_state c' = level_state c
  /\ last_valid_level c' = last_valid_level c.
Proof.
  cbv zeta. rewrite config_activity_unfold.
  destruct (_ && _); [| by ctx_fields c].
  destruct file as [| |new_cfg]; try by ctx_fields c.
  destruct (update_runtime_cfg (runtime_cfg c) new_cfg) as [rc' [[|k changes]|]];
    by ctx_fields c.
Qed.

(** The state evaluation touches neither the buffer nor the last filtered
    level. *)
Lemma eval_activity_frame now c :
  samples (eval_activity now c) = samples c
  /\ last_valid_level (eval_activity now c) = last_valid_level c.
Proof.
  unfold eval_activity.
  destruct (update_alarm_logic _ _ _ _ _) as [hw1 [[[s l] i] g]].
  ctx_fields c. ctx_simpl. by case_bool_decide.
Qed.

(** A failed measurement touches neither the buffer, nor the last filtered
    level, nor the alarm state; the relay record stays or becomes 0. *)
Lemma measure_failure_frame now sent c :
  let c' := measure_activity now (None, sent) c in
  samples c' = samples c /\ last_valid_level c' = last_valid_level c
  /\ level_state c' = level_state c
  /\ (relais_actief c' = relais_actief c \/ relais_actief c' = Some 0).
Proof.
  cbv zeta. unfold measure_activity. rewrite send_all_eq.
  ctx_fields c. ctx_simpl.
  destruct (_ >=? _); [| by auto]. case_bool_decide; cbn; auto.
Qed.

(** What a successful measurement does to the buffer. *)
Lemma measure_success_samples now d sent c :
  samples (measure_activity now (Some d, sent) c)
    = deque_append (Z.max 0 (cfg_get (runtime_cfg c) "TANK_HEIGHT_MM" - d))
        (samples c).
Proof.
  unfold measure_activity. rewrite send_all_eq. by ctx_fields c.
Qed.

Lemma deque_append_nonneg x d :
  0 <= x -> Forall (fun y => 0 <= y) (items d) ->
  Forall (fun y => 0 <= y) (items (deque_append x d)).
Proof.
  intros Hx Hd. unfold deque_append. cbn [items].
  assert (Hall : Forall (fun y => 0 <= y) (items d ++ [x]))
    by (apply Forall_app; split; [done | by constructor]).
  destruct (_ <? _)%nat; [| done].
  destruct (items d ++ [x]); [done | by inversion Hall].
Qed.

Lemma filtered_nonneg d m :
  Forall (fun y => 0 <= y) (items d) -> get_filtered_level d = Some m -> 0 <= m.
Proof.
  intros Hd Hm. unfold get_filtered_level in Hm.
  destruct (items d) as [|x l]; [done|]. injection Hm as <-.
  apply Z.div_pos; [| unfold len; cbn [length]; lia].
  change (0 <= sum (x :: l)).
  clear -Hd. induction Hd as [|y l' Hy _ IH]; [done|].
  cbn [sum foldr]. fold (sum l'). lia.
Qed.

(** Whatever the inputs, the state returned from a known state is known,
    and the relay asked for is 0 or 1. *)
Lemma alarm_result_known rc waterlevel s led hw :
  state_known s ->
  state_known (out_state (alarm_result rc waterlevel s led hw))
  /\ (out_relay (alarm_result rc waterlevel s led hw) = 0
      \/ out_relay (alarm_result rc waterlevel s led hw) = 1).
Proof.
  intros Hs. destruct waterlevel as [w|].
  - destruct Hs as [-> | [-> | ->]]; alarm_decide; auto.
  - unfold alarm_result, update_alarm_logic, out_state, out_relay.
    cbn [fst snd]. auto.
Qed.

Lemma run_activity_invariant n a c :
  loop_invariant n c -> loop_invariant n (run_activity a c).
Proof.
  intros (Hco & Hst & Hmax & Hsz & Hnn & Hlvl & Hrel).
  split; [by apply run_activity_coherent|].
  destruct a as [now h f | now [[d|] sent] | now]; cbn [run_activity].
  - destruct (config_activity_frame now h f c) as (_ & -> & _).
    destruct (config_activity_frame_state now h f c) as (-> & -> & ->).
    done.
  - destruct (measure_success_resets now d sent c)
      as (_ & _ & -> & -> & -> & _).
    rewrite measure_success_samples.
    assert (Hn' : Forall (fun y => 0 <= y)
              (items (deque_append
                 (Z.max 0 (cfg_get (runtime_cfg c) "TANK_HEIGHT_MM" - d))
                 (samples c))))
      by (apply deque_append_nonneg; [lia | done]).
    split; [done | split; [by rewrite <- Hmax | split; [| split; [done | split; [| done]]]]].
    + unfold well_sized. rewrite deque_append_length by done.
      cbn [maxlen deque_append]. lia.
    + intros m. by apply filtered_nonneg.
  - destruct (measure_failure_frame now sent c) as (-> & -> & -> & Hr).
    repeat (split; [done|]).
    destruct Hr as [-> | ->]; [done | auto].
  - destruct (eval_activity_frame now c) as (-> & ->).
    destruct (eval_activity_drives now c Hco) as (-> & _ & _ & _ & _ & -> & _).
    destruct (alarm_result_known (runtime_cfg c) (last_valid_level c)
                (level_state c) (led_status c) (hw c) Hst) as [Hk Hr].
    split; [done|]. repeat (split; [done|]).
    destruct Hr as [-> | ->]; auto.
Qed.

Lemma run_invariant n tr c : loop_invariant n c -> loop_invariant n (run tr c).
Proof.
  revert c. induction tr as [|a tr IH]; intros c Hc; [done|].
  apply IH. by apply run_activity_invariant.
Qed.

(** X21 (what holds in every turn of the loop).  From the state [main]
    starts in, whatever the ticks, digests, files and sensor responses of
    the turns: the relay pin is the value recorded in [relais_actief], which
    is unset, 0 or 1; the error counter is not negative; the alarm state is
    OK, LOW or BOTTOM; the buffer keeps the capacity it was created with
    and never holds more; every buffered level and the last filtered level
    are not negative. *)
Theorem main_loop_invariant (ticks_diff : Z -> Z -> Z) (ts : list tick)
    (rc : gmap string Z) (n : nat) (t_blink t_measure t_check : Z)
    (h : option (list Z)) (hw0 : pins) :
  loop_invariant n
    (main_loop ticks_diff ts
       (initial_context rc n t_blink t_measure t_check h hw0)).
Proof.
  assert (Hinit : loop_invariant n
            (initial_context rc n t_blink t_measure t_check h hw0)).
  { split; [apply initial_coherent|].
    split; [by left|]. split; [done|]. split; [unfold well_sized; cbn; lia|].
    split; [constructor|]. split; [done | by left]. }
  revert Hinit. generalize (initial_context rc n t_blink t_measure t_check h hw0).
  induction ts as [|t ts IH]; intros c Hc; [done|].
  change (main_loop ticks_diff (t :: ts) c)
    with (main_loop ticks_diff ts (main_iteration ticks_diff t c)).
  apply IH.
  destruct (main_iteration_activities ticks_diff t c) as (tr & -> & _).
  by apply run_invariant.
Qed.

Section KeysFixed.
Context {V : Type} `{PyNe V}.

Lemma update_keys_dom (keys : list string) (new_cfg runtime_cfg : gmap string V)
    (changes : list string) :
  dom (update_keys keys new_cfg runtime_cfg changes).1 = dom runtime_cfg.
Proof.
  revert runtime_cfg changes.
  induction keys as [|k rest IH]; intros rc changes; [done|].
  cbn [update_keys]. destruct (new_cfg !! k) as [nv|]; [| apply IH].
  destruct (rc !! k) as [cur|] eqn:Hcur; [| done].
  destruct (py_ne nv cur); [| apply IH].
  rewrite IH. apply dom_insert_lookup_L. by eexists.
Qed.

End KeysFixed.

Lemma run_activity_dom a c :
  dom (runtime_cfg (run_activity a c)) = dom (runtime_cfg c).
Proof.
  destruct a as [now h f | now [[d|] sent] | now]; cbn [run_activity].
  - rewrite config_activity_unfold.
    destruct (_ && _); [| by ctx_fields c].
    destruct f as [| |new_cfg]; try by ctx_fields c.
    pose proof (update_keys_dom RUNTIME_KEYS new_cfg (runtime_cfg c) []) as Hd.
    unfold update_runtime_cfg.
    destruct (update_keys RUNTIME_KEYS new_cfg (runtime_cfg c) [])
      as [rc' [[|k changes]|]]; cbn [fst] in Hd; by ctx_fields c.
  - unfold measure_activity. rewrite send_all_eq. by ctx_fields c.
  - unfold measure_activity. rewrite send_all_eq. ctx_fields c. ctx_simpl.
    destruct (_ >=? _); [| done]. by case_bool_decide.
  - unfold eval_activity.
    destruct (update_alarm_logic _ _ _ _ _) as [hw1 [[[s l] i] g]].
    ctx_fields c. ctx_simpl. by case_bool_decide.
Qed.

(** X22 (the runtime keys are fixed).  Whatever files are re-read during
    the loop, the runtime configuration keeps exactly the keys it started
    with: a reload never adds a key and never removes one, so a configuration
    that starts with every runtime key keeps every runtime key. *)
Theorem runtime_cfg_keys_fixed (ticks_diff : Z -> Z -> Z) (ts : list tick)
    (c : context) :
  dom (runtime_cfg (main_loop ticks_diff ts c)) = dom (runtime_cfg c)
  /\ (runtime_complete (runtime_cfg c) ->
      runtime_complete (runtime_cfg (main_loop ticks_diff ts c))).
Proof.
  assert (Hdom : dom (runtime_cfg (main_loop ticks_diff ts c))
                 = dom (runtime_cfg c)).
  { revert c. induction ts as [|t ts IH]; intros c; [done|].
    change (main_loop ticks_diff (t :: ts) c)
      with (main_loop ticks_diff ts (main_iteration ticks_diff t c)).
    rewrite IH.
    destruct (main_iteration_activities ticks_diff t c) as (tr & -> & _).
    clear. revert c. induction tr as [|a tr IHtr]; intros c; [done|].
    change (run (a :: tr) c) with (run tr (run_activity a c)).
    by rewrite IHtr, run_activity_dom. }
  split; [exact Hdom|].
  unfold runtime_complete. intros Hall. eapply Forall_impl; [exact Hall|].
  intros k Hk. cbn in *. by rewrite <- elem_of_dom, Hdom, elem_of_dom.
Qed.
